(** * PieLogger: a shallow embedding of [src/PieLogger.js]

    First the JavaScript string primitives the logger relies on, the class
    [PieLogLevel], POSIX [path.join] and the part of the Node platform the
    logger talks to (clock, file system, console); then the class
    [PieLogger], method by method as in the source; then a concrete host
    on which the logger can be run; and finally the properties.  Levels
    and paddings are integers; strings are sequences of code units. *)

From Stdlib Require Import ZArith Lia List Ascii String Bool.
From stdpp Require Import base option gmap strings list fin_maps.

Local Open Scope Z_scope.
Local Open Scope string_scope.

(** ** JavaScript string primitives *)

Module JsString.

(** [" ".repeat(n)] *)
Fixpoint spaces (n : nat) : string :=
  match n with
  | O => ""
  | S n' => String " " (spaces n')
  end.

(** [s.padEnd(targetLength)]: pads with spaces on the right up to
    [targetLength] code units; a target that is not larger than the
    length (in particular a negative one) leaves the string as it is. *)
Definition padEnd (s : string) (targetLength : Z) : string :=
  s +:+ spaces (Z.to_nat (targetLength - Z.of_nat (String.length s))).

(** [s.replace(/:/g, "-")] *)
Fixpoint replace_colons (s : string) : string :=
  match s with
  | "" => ""
  | String c s' =>
      String (if Ascii.eqb c ":" then "-" else c)%char (replace_colons s')
  end.

(** [s.replace("T", " ")]: only the first occurrence is replaced. *)
Fixpoint replace_first_T (s : string) : string :=
  match s with
  | "" => ""
  | String c s' =>
      if Ascii.eqb c "T" then String " " s' else String c (replace_first_T s')
  end.

(** [s.slice(0, -1)]: everything but the last code unit. *)
Fixpoint slice_0_m1 (s : string) : string :=
  match s with
  | "" => ""
  | String c "" => ""
  | String c s' => String c (slice_0_m1 s')
  end.

(** Whether the code unit [c] occurs in [s]: [s.includes(c)]. *)
Fixpoint occurs (c : ascii) (s : string) : bool :=
  match s with
  | "" => false
  | String d s' => Ascii.eqb d c || occurs c s'
  end.

End JsString.

(** ** class PieLogLevel *)

Module PieLogLevel.

Definition DEBUG : Z := 10.
Definition INFO : Z := 20.
Definition WARNING : Z := 30.
Definition ERROR : Z := 40.
Definition CRITICAL : Z := 50.

(** The levels the class defines. *)
Definition levels : list Z := [DEBUG; INFO; WARNING; ERROR; CRITICAL].

(** [static getLevelStr(level)]: a [switch] on the numeric level, whose
    cases compare with strict equality. *)
Definition getLevelStr (level : Z) : string :=
  if (level =? DEBUG)%Z then "DEBUG"
  else if (level =? INFO)%Z then "INFO"
  else if (level =? WARNING)%Z then "WARNING"
  else if (level =? ERROR)%Z then "ERROR"
  else if (level =? CRITICAL)%Z then "CRITICAL"
  else "UNKNOWN".

End PieLogLevel.

(** ** POSIX [path.join]

    Node's [path] module on a POSIX host.  A path is split at ['/'] into
    segments; empty segments and ["."] are dropped, [".."] removes the
    segment before it (or is kept, in a relative path, when there is none);
    the result is put together again with single slashes. *)

Module Path.

Definition sep : ascii := "/"%char.

(** [s.split("/")] *)
Fixpoint split (s : string) : list string :=
  match s with
  | "" => [""]
  | String c s' =>
      if Ascii.eqb c sep then "" :: split s'
      else match split s' with
           | [] => [String c ""]
           | seg :: segs => String c seg :: segs
           end
  end.

(** [segs.join("/")] *)
Fixpoint unsplit (segs : list string) : string :=
  match segs with
  | [] => ""
  | [seg] => seg
  | seg :: segs' => seg +:+ String sep (unsplit segs')
  end.

(** One step of [normalizeString]: [acc] holds the segments kept so
    far, the last one first. *)
Definition push_segment (allowAboveRoot : bool) (acc : list string)
    (seg : string) : list string :=
  if String.eqb seg "" then acc
  else if String.eqb seg "." then acc
  else if String.eqb seg ".." then
    match acc with
    | top :: acc' =>
        if String.eqb top ".." then
          (if allowAboveRoot then ".." :: acc else acc)
        else acc'
    | [] => if allowAboveRoot then [".."] else []
    end
  else seg :: acc.

Definition normalizeString (path : string) (allowAboveRoot : bool) : string :=
  unsplit (rev (fold_left (push_segment allowAboveRoot) (split path) [])).

Definition starts_with_sep (s : string) : bool :=
  match s with
  | String c _ => Ascii.eqb c sep
  | "" => false
  end.

Fixpoint ends_with_sep (s : string) : bool :=
  match s with
  | "" => false
  | String c "" => Ascii.eqb c sep
  | String _ s' => ends_with_sep s'
  end.

(** [path.normalize(path)] *)
Definition normalize (path : string) : string :=
  if String.eqb path "" then "."
  else
    let isAbsolute := starts_with_sep path in
    let trailingSeparator := ends_with_sep path in
    let path' := normalizeString path (negb isAbsolute) in
    if String.eqb path' "" then
      (if isAbsolute then "/" else if trailingSeparator then "./" else ".")
    else
      let path'' := if trailingSeparator then path' +:+ "/" else path' in
      if isAbsolute then "/" +:+ path'' else path''.

(** [path.join(...args)]: the non-empty arguments, joined by ['/'] and
    normalized. *)
Definition join (args : list string) : string :=
  match filter (fun arg => arg <> "") args with
  | [] => "."
  | parts => normalize (unsplit parts)
  end.

(** A segment that normalization keeps as it is. *)
Definition plain_segment (seg : string) : bool :=
  negb (String.eqb seg "") && negb (String.eqb seg ".")
  && negb (String.eqb seg "..").

(** An absolute path that is already normalized: a slash followed by
    plain segments with single slashes in between. *)
Definition normal_absolute (path : string) : bool :=
  match path with
  | String c rest => Ascii.eqb c sep && forallb plain_segment (split rest)
  | "" => false
  end.

End Path.

(** ** Outcomes of effectful code

    A JavaScript call either returns a value or throws; in both cases it
    leaves a state behind. *)

Inductive Error : Type :=
| IOError (syscall : string) (target : string).

Inductive Outcome (S A : Type) : Type :=
| Return (a : A) (s : S)
| Throw (e : Error) (s : S).

Arguments Return {S A} a s.
Arguments Throw {S A} e s.

Definition M (S A : Type) : Type := S -> Outcome S A.

Definition ret {S A} (a : A) : M S A := fun s => Return a s.

Definition bind {S A B} (m : M S A) (k : A -> M S B) : M S B :=
  fun s =>
    match m s with
    | Return a s' => k a s'
    | Throw e s' => Throw e s'
    end.

Declare Scope js_scope.
Delimit Scope js_scope with js.
Notation "x <- m ;; k" := (bind m (fun x => k))
  (at level 100, m at next level, right associativity) : js_scope.
Notation "m ;;; k" := (bind m (fun _ => k))
  (at level 100, right associativity) : js_scope.

(** The state an outcome leaves behind, whether it returned or threw. *)
Definition final {S A} (o : Outcome S A) : S :=
  match o with
  | Return _ s => s
  | Throw _ s => s
  end.

Definition returned {S A} (o : Outcome S A) : bool :=
  match o with
  | Return _ _ => true
  | Throw _ _ => false
  end.

(** ** The Node platform

    What the logger sees of its host: the home directory, the clock, the
    file system, the write streams and the console.  The host decides which
    operations fail; the three fault fields record its decisions.  Only
    [mkdirSync] reports a failure by throwing: [console.log] swallows the
    errors of the stream it writes to, and a write stream reports a failed
    write later, through an ['error'] event. *)

Module Node.

(** The object [fs.createWriteStream] returns: every call gives a new
    stream, told apart from the others by [ws_id], on the path it was
    opened on. *)
Record WriteStream : Type := { ws_id : nat; ws_path : string }.

Record World : Type := {
  homedir : string;              (* os.homedir() *)
  clock : nat -> string;         (* the n-th [new Date().toISOString()] *)
  ticks : nat;                   (* how often the clock was read *)
  dirs : gset string;            (* directories that exist *)
  files : gmap string string;    (* regular files and their contents *)
  stdout : list string;          (* what console.log printed, in order *)
  mkdir_fails : string -> bool;  (* mkdirSync on this path throws *)
  write_fails : string -> bool;  (* a write to this file does not reach it *)
  stdout_broken : bool;          (* what console.log prints is lost *)
  open_streams : list WriteStream; (* the streams created and not closed *)
  error_events : list Error      (* 'error' events waiting for the event loop *)
}.

Definition set_ticks (n : nat) (w : World) : World :=
  {| homedir := homedir w; clock := clock w; ticks := n; dirs := dirs w;
     files := files w; stdout := stdout w; mkdir_fails := mkdir_fails w;
     write_fails := write_fails w; stdout_broken := stdout_broken w;
     open_streams := open_streams w; error_events := error_events w |}.

Definition set_dirs (d : gset string) (w : World) : World :=
  {| homedir := homedir w; clock := clock w; ticks := ticks w; dirs := d;
     files := files w; stdout := stdout w; mkdir_fails := mkdir_fails w;
     write_fails := write_fails w; stdout_broken := stdout_broken w;
     open_streams := open_streams w; error_events := error_events w |}.

Definition set_files (f : gmap string string) (w : World) : World :=
  {| homedir := homedir w; clock := clock w; ticks := ticks w; dirs := dirs w;
     files := f; stdout := stdout w; mkdir_fails := mkdir_fails w;
     write_fails := write_fails w; stdout_broken := stdout_broken w;
     open_streams := open_streams w; error_events := error_events w |}.

Definition set_stdout (o : list string) (w : World) : World :=
  {| homedir := homedir w; clock := clock w; ticks := ticks w; dirs := dirs w;
     files := files w; stdout := o; mkdir_fails := mkdir_fails w;
     write_fails := write_fails w; stdout_broken := stdout_broken w;
     open_streams := open_streams w; error_events := error_events w |}.

Definition set_open_streams (l : list WriteStream) (w : World) : World :=
  {| homedir := homedir w; clock := clock w; ticks := ticks w; dirs := dirs w;
     files := files w; stdout := stdout w; mkdir_fails := mkdir_fails w;
     write_fails := write_fails w; stdout_broken := stdout_broken w;
     open_streams := l; error_events := error_events w |}.

Definition set_error_events (l : list Error) (w : World) : World :=
  {| homedir := homedir w; clock := clock w; ticks := ticks w; dirs := dirs w;
     files := files w; stdout := stdout w; mkdir_fails := mkdir_fails w;
     write_fails := write_fails w; stdout_broken := stdout_broken w;
     open_streams := open_streams w; error_events := l |}.

(** The contents of a file; a file that does not exist reads as empty. *)
Definition contents (w : World) (path : string) : string :=
  default "" (files w !! path).

(** Reading the clock never fails; it advances the tick count. *)
Definition read_clock (w : World) : string * World :=
  (clock w (ticks w), set_ticks (S (ticks w)) w).

(** [new Date().toISOString()] *)
Definition Date_toISOString : M World string :=
  fun w => let (iso, w') := read_clock w in Return iso w'.

(** [os.homedir()] *)
Definition os_homedir : M World string :=
  fun w => Return (homedir w) w.

(** [fs.existsSync(path)]: true for a directory and for a regular file. *)
Definition fs_existsSync (path : string) : M World bool :=
  fun w =>
    Return (bool_decide (path ∈ dirs w) || bool_decide (is_Some (files w !! path))) w.

(** [fs.mkdirSync(path, { recursive: true })]: the host either refuses
    or creates the directory; its ancestors are not tracked. *)
Definition fs_mkdirSync (path : string) : M World unit :=
  fun w =>
    if mkdir_fails w path then Throw (IOError "mkdir" path) w
    else Return tt (set_dirs ({[path]} ∪ dirs w) w).

(** [fs.createWriteStream(path, { flags: "a" })]: a new stream object is
    returned at once and joins the open streams.  The file is opened
    later, on the event loop, so no file is created or changed when the
    call returns; an open that fails shows as writes that do not reach the
    file. *)
Definition fs_createWriteStream (path : string) : M World WriteStream :=
  fun w =>
    let stream := {| ws_id := List.length (open_streams w); ws_path := path |} in
    Return stream (set_open_streams (open_streams w ++ [stream]) w).

(** [stream.write(data)] on an append stream: the call always returns.
    Node queues the data and writes it in the order of the calls, after
    what the file holds, creating the file when it is missing; the model
    appends it at once.  A write that fails loses the data and leaves an
    ['error'] event for the event loop. *)
Definition stream_write (stream : WriteStream) (data : string) : M World unit :=
  fun w =>
    let path := ws_path stream in
    if write_fails w path then
      Return tt (set_error_events (error_events w ++ [IOError "write" path]) w)
    else Return tt (set_files (<[path := contents w path +:+ data]> (files w)) w).

(** [console.log(text)]: the call always returns; on a broken console
    the text is lost. *)
Definition console_log (text : string) : M World unit :=
  fun w =>
    if stdout_broken w then Return tt w
    else Return tt (set_stdout (stdout w ++ [text]) w).

End Node.

(** ** Values passed as [details], and the vendored libraries *)

(** The JavaScript values a caller can pass as [details]. *)
Inductive JsValue : Type :=
| JsNull
| JsUndefined
| JsBoolean (b : bool)
| JsNumber (n : Z)
| JsStr (s : string)
| JsObject (fields : list JsField)
with JsField : Type :=
| Field (key : string) (value : JsValue).

(** ToBoolean *)
Definition truthy (v : JsValue) : bool :=
  match v with
  | JsNull | JsUndefined => false
  | JsBoolean b => b
  | JsNumber n => negb (n =? 0)%Z
  | JsStr s => negb (String.eqb s "")
  | JsObject _ => true
  end.

Module Chalk.
(** The chalk styles the logger uses. *)
Inductive Color : Type := cyan | green | yellow | red | magenta | white.

#[global] Instance Color_eq_dec : EqDecision Color.
Proof. solve_decision. Defined.
End Chalk.

(** The two library functions whose results end up in the log text:
    [chalk.<color>(str)] and [util.inspect(value, { depth: null })]. *)
Class Vendor : Type := {
  chalk : Chalk.Color -> string -> string;
  util_inspect : JsValue -> string
}.

(** ** class PieLogger *)

Module PieLogger.
Import Node JsString.

(** The constructor's [options] object: every field but the name may be
    left out. *)
Record Options : Type := {
  opt_loggerName : string;
  opt_timezone : option string;
  opt_timestampPadding : option Z;
  opt_logLevelPadding : option Z;
  opt_filePathPadding : option Z;
  opt_colorful : option bool;
  opt_minimumLogLevel : option Z;
  opt_logToFile : option bool;
  opt_logDirectory : option string;
  opt_logFileSizeLimit : option Z;
  opt_maxBackupFiles : option Z
}.

(** The fields of a [PieLogger] instance.  [logFilePath] and
    [fileWriteStream] are [undefined] until [setupLogDirectory] sets
    them. *)
Record Instance : Type := {
  loggerName : string;
  timezone : string;
  timestampPadding : Z;
  logLevelPadding : Z;
  filePathPadding : Z;
  colorful : bool;
  minimumLogLevel : Z;
  logToFile : bool;
  logDirectory : string;
  logFileSizeLimit : Z;
  maxBackupFiles : Z;
  startTimestamp : string;
  logFilePath : option string;
  fileWriteStream : option WriteStream
}.

(** What a method runs on: the object it is called on and the world. *)
Record State : Type := { this : Instance; world : World }.

Definition get_this : M State Instance := fun s => Return (this s) s.

(** A platform call made from a method: it changes the world only. *)
Definition lift {A} (m : M World A) : M State A :=
  fun s =>
    match m (world s) with
    | Return a w => Return a {| this := this s; world := w |}
    | Throw e w => Throw e {| this := this s; world := w |}
    end.

(** [this.logFilePath = path] *)
Definition set_logFilePath (path : string) : M State unit :=
  fun s =>
    let t := this s in
    Return tt
      {| this :=
           {| loggerName := loggerName t; timezone := timezone t;
              timestampPadding := timestampPadding t;
              logLevelPadding := logLevelPadding t;
              filePathPadding := filePathPadding t; colorful := colorful t;
              minimumLogLevel := minimumLogLevel t; logToFile := logToFile t;
              logDirectory := logDirectory t;
              logFileSizeLimit := logFileSizeLimit t;
              maxBackupFiles := maxBackupFiles t;
              startTimestamp := startTimestamp t;
              logFilePath := Some path;
              fileWriteStream := fileWriteStream t |};
         world := world s |}.

(** [this.fileWriteStream = stream] *)
Definition set_fileWriteStream (stream : WriteStream) : M State unit :=
  fun s =>
    let t := this s in
    Return tt
      {| this :=
           {| loggerName := loggerName t; timezone := timezone t;
              timestampPadding := timestampPadding t;
              logLevelPadding := logLevelPadding t;
              filePathPadding := filePathPadding t; colorful := colorful t;
              minimumLogLevel := minimumLogLevel t; logToFile := logToFile t;
              logDirectory := logDirectory t;
              logFileSizeLimit := logFileSizeLimit t;
              maxBackupFiles := maxBackupFiles t;
              startTimestamp := startTimestamp t;
              logFilePath := logFilePath t;
              fileWriteStream := Some stream |};
         world := world s |}.

Local Open Scope js_scope.

(** [setupLogDirectory()] *)
Definition setupLogDirectory : M State unit :=
  t <- get_this ;;
  home <- lift os_homedir ;;
  let logDir := Path.join [home; logDirectory t; startTimestamp t] in
  present <- lift (fs_existsSync logDir) ;;
  (if negb present then lift (fs_mkdirSync logDir) else ret tt) ;;;
  let path :=
    Path.join [logDir; loggerName t +:+ "-" +:+ startTimestamp t +:+ ".log"] in
  set_logFilePath path ;;;
  stream <- lift (fs_createWriteStream path) ;;
  set_fileWriteStream stream.

(** [new PieLogger(options)]: the defaults are filled in, the session
    timestamp is taken from the clock, and the log directory is set up
    when file logging is on.  A constructor that throws yields no
    instance. *)
Definition new (options : Options) (w : World) : Outcome State unit :=
  let logToFile_ := default true (opt_logToFile options) in
  let (iso, w') := read_clock w in
  let t :=
    {| loggerName := opt_loggerName options;
       timezone := default "UTC" (opt_timezone options);
       timestampPadding := default 30 (opt_timestampPadding options);
       logLevelPadding := default 10 (opt_logLevelPadding options);
       filePathPadding := default 30 (opt_filePathPadding options);
       colorful := default true (opt_colorful options);
       minimumLogLevel :=
         default PieLogLevel.INFO (opt_minimumLogLevel options);
       logToFile := logToFile_;
       logDirectory := default "logs" (opt_logDirectory options);
       logFileSizeLimit :=
         default (32 * 1024 * 1024) (opt_logFileSizeLimit options);
       maxBackupFiles := default 2 (opt_maxBackupFiles options);
       startTimestamp := replace_colons iso;
       logFilePath := None;
       fileWriteStream := None |} in
  (if logToFile_ then setupLogDirectory else ret tt)
    {| this := t; world := w' |}.

(** [getTimestamp()] *)
Definition getTimestamp : M State string :=
  iso <- lift Date_toISOString ;;
  ret (slice_0_m1 (replace_first_T iso)).

(** The line feed character. *)
Definition LF : string := String (ascii_of_nat 10) "".

Section Methods.
Context `{Vendor}.

(** The object literal [colorMapping] of [consoleLog], keyed by level. *)
Definition colorMapping : gmap Z Chalk.Color :=
  <[PieLogLevel.DEBUG := Chalk.cyan]>
  (<[PieLogLevel.INFO := Chalk.green]>
  (<[PieLogLevel.WARNING := Chalk.yellow]>
  (<[PieLogLevel.ERROR := Chalk.red]>
  (<[PieLogLevel.CRITICAL := Chalk.magenta]> ∅)))).

(** [this.colorful ? colorMapping[level] || chalk.white : (str) => str] *)
Definition colorize (t : Instance) (level : Z) : string -> string :=
  if colorful t then
    match colorMapping !! level with
    | Some color => chalk color
    | None => chalk Chalk.white
    end
  else fun str => str.

(** [consoleLog(level, logMessage)] *)
Definition consoleLog (level : Z) (logMessage : string) : M State unit :=
  t <- get_this ;;
  lift (console_log (colorize t level logMessage)).

(** [fileLog(logMessage)] *)
Definition fileLog (logMessage : string) : M State unit :=
  t <- get_this ;;
  match fileWriteStream t with
  | Some stream => lift (stream_write stream (logMessage +:+ LF))
  | None => ret tt
  end.

(** The text [log] builds from the level, the timestamp it read, the
    message and the details: [fullLog] in the source. *)
Definition fullLog (t : Instance) (level : Z) (now : string)
    (message : string) (details : JsValue) : string :=
  let levelStr := padEnd (PieLogLevel.getLevelStr level) (logLevelPadding t) in
  let timestamp := padEnd now (timestampPadding t) in
  let filePath := padEnd ("[" +:+ loggerName t +:+ "]") (filePathPadding t) in
  let logMessage :=
    timestamp +:+ " " +:+ levelStr +:+ " " +:+ filePath +:+ ": " +:+ message in
  if truthy details then logMessage +:+ LF +:+ util_inspect details
  else logMessage.

(** [log(level, message, details = null, execInfo = false)] *)
Definition log (level : Z) (message : string) (details : JsValue)
    : M State unit :=
  t <- get_this ;;
  if (level <? minimumLogLevel t)%Z then ret tt
  else
    now <- getTimestamp ;;
    let text := fullLog t level now message details in
    consoleLog level text ;;;
    t' <- get_this ;;
    if logToFile t' then fileLog text else ret tt.

(** The convenience wrappers. *)
Definition debug (message : string) (details : JsValue) : M State unit :=
  log PieLogLevel.DEBUG message details.
Definition info (message : string) (details : JsValue) : M State unit :=
  log PieLogLevel.INFO message details.
Definition warning (message : string) (details : JsValue) : M State unit :=
  log PieLogLevel.WARNING message details.
Definition error (message : string) (details : JsValue) : M State unit :=
  log PieLogLevel.ERROR message details.
Definition critical (message : string) (details : JsValue) : M State unit :=
  log PieLogLevel.CRITICAL message details.

(** One emission call made by the application. *)
Record Emission : Type := {
  em_level : Z;
  em_message : string;
  em_details : JsValue
}.

Definition emit (e : Emission) : M State unit :=
  log (em_level e) (em_message e) (em_details e).

(** A single sequential caller: the calls run one after the other, and
    the first one that throws ends the run. *)
Fixpoint emit_all (es : list Emission) : M State unit :=
  match es with
  | [] => ret tt
  | e :: es' => emit e ;;; emit_all es'
  end.

End Methods.

End PieLogger.

(** ** A concrete host, for running the logger on examples *)

Module Host.
Import Node PieLogger.

(** SGR foreground codes, as chalk emits them on a colour terminal. *)
Definition sgr (c : Chalk.Color) : string :=
  match c with
  | Chalk.cyan => "36"
  | Chalk.green => "32"
  | Chalk.yellow => "33"
  | Chalk.red => "31"
  | Chalk.magenta => "35"
  | Chalk.white => "37"
  end.

Definition ESC : string := String (ascii_of_nat 27) "".

Definition ansi : Vendor := {|
  chalk := fun c str => ESC +:+ "[" +:+ sgr c +:+ "m" +:+ str +:+ ESC +:+ "[39m";
  util_inspect := fun v =>
    match v with
    | JsObject [] => "{}"
    | JsStr s => "'" +:+ s +:+ "'"
    | _ => "[details]"
    end
|}.

Definition instants : list string :=
  [ "2024-01-02T03:04:05.000Z"; "2024-01-02T03:04:05.010Z";
    "2024-01-02T03:04:05.020Z"; "2024-01-02T03:04:05.030Z";
    "2024-01-02T03:04:05.040Z" ].

(** A host with an empty disk on which nothing fails. *)
Definition healthy : World := {|
  homedir := "/home/u";
  clock := fun n => nth n instants "2024-01-02T03:04:06.000Z";
  ticks := 0;
  dirs := {["/home/u"]};
  files := ∅;
  stdout := [];
  mkdir_fails := fun _ => false;
  write_fails := fun _ => false;
  stdout_broken := false;
  open_streams := [];
  error_events := []
|}.

(** The same host, on which no directory can be created. *)
Definition readonly : World := {|
  homedir := "/home/u";
  clock := clock healthy;
  ticks := 0;
  dirs := {["/home/u"]};
  files := ∅;
  stdout := [];
  mkdir_fails := fun _ => true;
  write_fails := fun _ => false;
  stdout_broken := false;
  open_streams := [];
  error_events := []
|}.

(** The same host with a broken console. *)
Definition mute : World := {|
  homedir := "/home/u";
  clock := clock healthy;
  ticks := 0;
  dirs := {["/home/u"]};
  files := ∅;
  stdout := [];
  mkdir_fails := fun _ => false;
  write_fails := fun _ => false;
  stdout_broken := true;
  open_streams := [];
  error_events := []
|}.

(** Options that leave everything at its default. *)
Definition defaults (name : string) : Options := {|
  opt_loggerName := name;
  opt_timezone := None;
  opt_timestampPadding := None;
  opt_logLevelPadding := None;
  opt_filePathPadding := None;
  opt_colorful := None;
  opt_minimumLogLevel := None;
  opt_logToFile := None;
  opt_logDirectory := None;
  opt_logFileSizeLimit := None;
  opt_maxBackupFiles := None
|}.

(** The logger of the rotation scenario: a size limit of 100 bytes,
    [maxBackupFiles] backups, no column padding, no colours. *)
Definition small (maxBackups : Z) : Options := {|
  opt_loggerName := "a";
  opt_timezone := None;
  opt_timestampPadding := Some 0;
  opt_logLevelPadding := Some 0;
  opt_filePathPadding := Some 0;
  opt_colorful := Some false;
  opt_minimumLogLevel := None;
  opt_logToFile := None;
  opt_logDirectory := None;
  opt_logFileSizeLimit := Some 100;
  opt_maxBackupFiles := Some maxBackups
|}.

(** The state a successful (or failed) construction leaves behind. *)
Definition session (o : Options) (w : World) : State := final (new o w).

Definition three_emissions : list Emission :=
  [ {| em_level := PieLogLevel.INFO; em_message := "hello"; em_details := JsNull |};
    {| em_level := PieLogLevel.INFO; em_message := "world"; em_details := JsNull |};
    {| em_level := PieLogLevel.INFO; em_message := "again"; em_details := JsNull |} ].

(** Three [info] calls after construction. *)
Definition three_infos (o : Options) (w : World) : Outcome State unit :=
  match new o w with
  | Return _ s => emit_all (H := ansi) three_emissions s
  | Throw e s => Throw e s
  end.

(** A logger whose [logToFile] flag is on although no stream was ever
    opened: built with file logging off, with the flag set afterwards. *)
Definition unopened : State :=
  let s := session {| opt_loggerName := "app";
                      opt_timezone := None;
                      opt_timestampPadding := None;
                      opt_logLevelPadding := None;
                      opt_filePathPadding := None;
                      opt_colorful := None;
                      opt_minimumLogLevel := None;
                      opt_logToFile := Some false;
                      opt_logDirectory := None;
                      opt_logFileSizeLimit := None;
                      opt_maxBackupFiles := None |} healthy in
  let t := this s in
  {| this := {| loggerName := loggerName t; timezone := timezone t;
                timestampPadding := timestampPadding t;
                logLevelPadding := logLevelPadding t;
                filePathPadding := filePathPadding t; colorful := colorful t;
                minimumLogLevel := minimumLogLevel t; logToFile := true;
                logDirectory := logDirectory t;
                logFileSizeLimit := logFileSizeLimit t;
                maxBackupFiles := maxBackupFiles t;
                startTimestamp := startTimestamp t;
                logFilePath := logFilePath t;
                fileWriteStream := fileWriteStream t |};
     world := world s |}.

(** The log file and the three formatted lines of that scenario. *)
Definition small_log : string :=
  "/home/u/logs/2024-01-02T03-04-05.000Z/a-2024-01-02T03-04-05.000Z.log".

Definition three_lines : list string :=
  [ "2024-01-02 03:04:05.010 INFO [a]: hello";
    "2024-01-02 03:04:05.020 INFO [a]: world";
    "2024-01-02 03:04:05.030 INFO [a]: again" ].

Definition app_log : string :=
  "/home/u/logs/2024-01-02T03-04-05.000Z/app-2024-01-02T03-04-05.000Z.log".

(** A host on which the session directory of the first instant is there
    already, the log file of ["app"] holds an earlier line, another file
    lies in the home directory, and no directory can be created. *)
Definition resumed : World := {|
  homedir := "/home/u";
  clock := clock healthy;
  ticks := 0;
  dirs := {["/home/u/logs/2024-01-02T03-04-05.000Z"]};
  files := <["/home/u/notes.txt" := "keep"]> {[ app_log := "earlier line" +:+ LF ]};
  stdout := [];
  mkdir_fails := fun _ => true;
  write_fails := fun _ => false;
  stdout_broken := false;
  open_streams := [];
  error_events := []
|}.

(** A host on which every sink and every directory creation fails. *)
Definition hostile : World := {|
  homedir := "/home/u";
  clock := clock healthy;
  ticks := 0;
  dirs := {["/home/u"]};
  files := {[ "/home/u/notes.txt" := "keep" ]};
  stdout := [];
  mkdir_fails := fun _ => true;
  write_fails := fun _ => true;
  stdout_broken := true;
  open_streams := [];
  error_events := []
|}.

(** The healthy host with a clock that prints instants without colons. *)
Definition compact : World := {|
  homedir := "/home/u";
  clock := fun _ => "20240102T030405.000Z";
  ticks := 0;
  dirs := {["/home/u"]};
  files := ∅;
  stdout := [];
  mkdir_fails := fun _ => false;
  write_fails := fun _ => false;
  stdout_broken := false;
  open_streams := [];
  error_events := []
|}.


(** A run in which only some records pass the default minimum. *)
Definition mixed_emissions : list Emission :=
  [ {| em_level := PieLogLevel.DEBUG; em_message := "quiet"; em_details := JsNull |};
    {| em_level := PieLogLevel.INFO; em_message := "hello"; em_details := JsNull |};
    {| em_level := 15; em_message := "quiet"; em_details := JsNull |};
    {| em_level := PieLogLevel.ERROR; em_message := "world"; em_details := JsNull |} ].

(** Options with a minimum above every defined level. *)
Definition silent : Options := {|
  opt_loggerName := "app";
  opt_timezone := None;
  opt_timestampPadding := None;
  opt_logLevelPadding := None;
  opt_filePathPadding := None;
  opt_colorful := None;
  opt_minimumLogLevel := Some 60%Z;
  opt_logToFile := Some false;
  opt_logDirectory := None;
  opt_logFileSizeLimit := None;
  opt_maxBackupFiles := None
|}.

Definition console_only (name : string) : Options := {|
  opt_loggerName := name;
  opt_timezone := None;
  opt_timestampPadding := None;
  opt_logLevelPadding := None;
  opt_filePathPadding := None;
  opt_colorful := None;
  opt_minimumLogLevel := None;
  opt_logToFile := Some false;
  opt_logDirectory := None;
  opt_logFileSizeLimit := None;
  opt_maxBackupFiles := None
|}.

End Host.

(** ** Vocabulary of the statements *)

Import Node PieLogger JsString.

(** The timestamp [getTimestamp] returns in world [w]. *)
Definition stamp (w : World) : string :=
  slice_0_m1 (replace_first_T (clock w (ticks w))).

(** The world after one reading of the clock. *)
Definition ticked (w : World) : World := set_ticks (S (ticks w)) w.

(** The world after [text] went to the console. *)
Definition printed (text : string) (w : World) : World :=
  set_stdout (stdout w ++ [text]) w.

(** The world after [data] was appended to the file at [path]. *)
Definition appended (path data : string) (w : World) : World :=
  set_files (<[path := contents w path +:+ data]> (files w)) w.

(** The chalk style [consoleLog] picks for a level. *)
Definition colour_of (level : Z) : Chalk.Color :=
  default Chalk.white (colorMapping !! level).

(** The texts a run of emissions formats when each one reads the clock
    once, starting at tick [tick]: one text per emission, in call order. *)
Fixpoint formatted `{Vendor} (t : Instance) (clk : nat -> string) (tick : nat)
    (es : list Emission) : list string :=
  match es with
  | [] => []
  | e :: es' =>
      fullLog t (em_level e) (slice_0_m1 (replace_first_T (clk tick)))
        (em_message e) (em_details e)
      :: formatted t clk (S tick) es'
  end.

(** The same texts as the console shows them. *)
Fixpoint shown `{Vendor} (t : Instance) (clk : nat -> string) (tick : nat)
    (es : list Emission) : list string :=
  match es with
  | [] => []
  | e :: es' =>
      colorize t (em_level e)
        (fullLog t (em_level e) (slice_0_m1 (replace_first_T (clk tick)))
           (em_message e) (em_details e))
      :: shown t clk (S tick) es'
  end.

(** Texts written one after the other, each followed by a line feed. *)
Fixpoint as_lines (texts : list string) : string :=
  match texts with
  | [] => ""
  | text :: texts' => text +:+ LF +:+ as_lines texts'
  end.

(** Reading a set of files one after the other. *)
Fixpoint read_set (w : World) (paths : list string) : string :=
  match paths with
  | [] => ""
  | path :: paths' => contents w path +:+ read_set w paths'
  end.

(** [fs.existsSync(path)] as a function of the world. *)
Definition present (w : World) (path : string) : bool :=
  bool_decide (path ∈ dirs w) || bool_decide (is_Some (files w !! path)).

(** The session timestamp a logger constructed in world [w] gets. *)
Definition session_stamp (w : World) : string :=
  replace_colons (clock w (ticks w)).

(** The session directory of a logger constructed in world [w]. *)
Definition session_dir (o : Options) (w : World) : string :=
  Path.join [homedir w; default "logs" (opt_logDirectory o); session_stamp w].

(** The log file of a logger constructed in world [w]. *)
Definition session_file (o : Options) (w : World) : string :=
  Path.join [session_dir o w;
             opt_loggerName o +:+ "-" +:+ session_stamp w +:+ ".log"].

(** The texts of the records of a run that pass the filter of [t], in call
    order; only those records read the clock. *)
Fixpoint passing `{Vendor} (t : Instance) (clk : nat -> string) (tick : nat)
    (es : list Emission) : list string :=
  match es with
  | [] => []
  | e :: es' =>
      if (em_level e <? minimumLogLevel t)%Z then passing t clk tick es'
      else
        fullLog t (em_level e) (slice_0_m1 (replace_first_T (clk tick)))
          (em_message e) (em_details e)
        :: passing t clk (S tick) es'
  end.

(** [w'] is [w] after some logging: the same host, directories and
    faults; the console and every file hold what they held, possibly with
    more after it; no file is gone. *)
Definition extends (w w' : World) : Prop :=
  homedir w' = homedir w /\
  clock w' = clock w /\
  dirs w' = dirs w /\
  mkdir_fails w' = mkdir_fails w /\
  write_fails w' = write_fails w /\
  stdout_broken w' = stdout_broken w /\
  (ticks w <= ticks w')%nat /\
  (exists more, stdout w' = (stdout w ++ more)%list) /\
  (forall path, is_Some (files w !! path) -> is_Some (files w' !! path)) /\
  (forall path, exists more, contents w' path = contents w path +:+ more).

(** The configuration fields of two instances agree. *)
Definition same_config (t t' : Instance) : Prop :=
  loggerName t' = loggerName t /\
  timezone t' = timezone t /\
  timestampPadding t' = timestampPadding t /\
  logLevelPadding t' = logLevelPadding t /\
  filePathPadding t' = filePathPadding t /\
  colorful t' = colorful t /\
  minimumLogLevel t' = minimumLogLevel t /\
  logToFile t' = logToFile t /\
  logDirectory t' = logDirectory t /\
  logFileSizeLimit t' = logFileSizeLimit t /\
  maxBackupFiles t' = maxBackupFiles t /\
  startTimestamp t' = startTimestamp t.

(** The world after a write to the file at [path] failed: the data is
    lost and an ['error'] event waits for the event loop. *)
Definition unwritten (path : string) (w : World) : World :=
  set_error_events (error_events w ++ [IOError "write" path]) w.

(** The same object in another world. *)
Definition in_world (s : State) (w : World) : State :=
  {| this := this s; world := w |}.

(** ** Properties *)

Lemma append_cons c s t : String c s +:+ t = String c (s +:+ t).
Proof. reflexivity. Qed.

Lemma append_empty_r s : s +:+ "" = s.
Proof.
  induction s as [|c s IH]; [reflexivity|].
  rewrite append_cons. congruence.
Qed.

(** *** Paths that are already normalized *)

Module PathFacts.
Import Path.

Lemma split_not_nil s : split s <> [].
Proof.
  destruct s as [|c s]; simpl; [discriminate|].
  destruct (Ascii.eqb c sep); [discriminate|].
  destruct (split s); discriminate.
Qed.

Lemma split_sep s : split (String sep s) = "" :: split s.
Proof. reflexivity. Qed.

Lemma unsplit_cons seg segs :
  segs <> [] -> unsplit (seg :: segs) = seg +:+ String sep (unsplit segs).
Proof. destruct segs; [congruence|reflexivity]. Qed.

Lemma unsplit_cons_char c seg segs :
  unsplit (String c seg :: segs) = String c (unsplit (seg :: segs)).
Proof. destruct segs; reflexivity. Qed.

Lemma unsplit_split s : unsplit (split s) = s.
Proof.
  induction s as [|c s IH]; [reflexivity|]. simpl split.
  destruct (Ascii.eqb_spec c sep) as [->|Hc].
  - rewrite unsplit_cons by apply split_not_nil. by rewrite IH.
  - destruct (split s) as [|seg segs] eqn:Hs; [by destruct (split_not_nil s)|].
    rewrite unsplit_cons_char. by rewrite IH.
Qed.

Lemma split_app a b : split (a +:+ String sep b) = (split a ++ split b)%list.
Proof.
  induction a as [|c a IH]; [reflexivity|].
  rewrite append_cons. simpl split. rewrite IH.
  destruct (Ascii.eqb c sep); [reflexivity|].
  destruct (split a) as [|seg segs] eqn:Hs; [by destruct (split_not_nil a)|].
  reflexivity.
Qed.

Lemma push_plain b acc seg :
  plain_segment seg = true -> push_segment b acc seg = seg :: acc.
Proof.
  unfold plain_segment, push_segment. intros Hp.
  apply andb_prop in Hp as [Hp H2]. apply andb_prop in Hp as [H0 H1].
  apply negb_true_iff in H0, H1, H2. by rewrite H0, H1, H2.
Qed.

Lemma fold_push_plain b segs acc :
  forallb plain_segment segs = true ->
  fold_left (push_segment b) segs acc = (rev segs ++ acc)%list.
Proof.
  revert acc. induction segs as [|seg segs IH]; intros acc Hall; [reflexivity|].
  simpl in Hall. apply andb_prop in Hall as [Hseg Hall].
  simpl. rewrite push_plain by exact Hseg. rewrite IH by exact Hall.
  by rewrite <- app_assoc.
Qed.

Lemma ends_with_sep_inv s :
  ends_with_sep s = true -> exists t, s = t +:+ String sep "".
Proof.
  induction s as [|c s IH]; [discriminate|].
  destruct s as [|d s'].
  - simpl. intros Hc. apply Ascii.eqb_eq in Hc as ->. by exists "".
  - intros Hend. change (ends_with_sep (String d s') = true) in Hend.
    destruct (IH Hend) as [t Ht]. exists (String c t).
    rewrite append_cons. by rewrite <- Ht.
Qed.

Lemma plain_not_empty s : forallb plain_segment (split s) = true -> s <> "".
Proof. intros Hall ->. discriminate. Qed.

Lemma plain_no_trailing_sep s :
  forallb plain_segment (split s) = true -> ends_with_sep s = false.
Proof.
  intros Hall. destruct (ends_with_sep s) eqn:Hend; [|reflexivity].
  destruct (ends_with_sep_inv s Hend) as [t ->].
  rewrite split_app, forallb_app in Hall.
  apply andb_prop in Hall as [_ Hlast]. discriminate.
Qed.

Lemma ends_with_sep_cons c s : s <> "" -> ends_with_sep (String c s) = ends_with_sep s.
Proof. destruct s; [congruence|reflexivity]. Qed.

(** Normalizing a normalized absolute path gives the path back. *)
Lemma normalize_normal path :
  normal_absolute path = true -> normalize path = path.
Proof.
  destruct path as [|c rest]; [discriminate|]. simpl normal_absolute.
  intros Hn. apply andb_prop in Hn as [Hc Hall].
  apply Ascii.eqb_eq in Hc as ->.
  pose proof (plain_not_empty rest Hall) as Hrest.
  unfold normalize. simpl String.eqb. cbv iota.
  change (starts_with_sep (String sep rest)) with true.
  rewrite ends_with_sep_cons by exact Hrest.
  rewrite plain_no_trailing_sep by exact Hall. cbv zeta. simpl negb.
  unfold normalizeString. rewrite split_sep. simpl fold_left.
  rewrite fold_push_plain by exact Hall.
  rewrite app_nil_r, rev_involutive, unsplit_split.
  destruct (String.eqb_spec rest "") as [->|_]; [congruence|].
  reflexivity.
Qed.

Lemma normal_absolute_app a b :
  a <> "" ->
  normal_absolute (a +:+ String sep b) = true ->
  normal_absolute a = true /\ forallb plain_segment (split b) = true.
Proof.
  destruct a as [|c a]; [congruence|]. intros _.
  rewrite append_cons. simpl normal_absolute.
  rewrite split_app, forallb_app. intros Hn.
  apply andb_prop in Hn as [Hc Hn]. apply andb_prop in Hn as [Ha Hb].
  by rewrite Hc, Ha, Hb.
Qed.

Lemma join_two_normal a b :
  a <> "" ->
  normal_absolute (a +:+ String sep b) = true ->
  join [a; b] = a +:+ String sep b.
Proof.
  intros Ha Hn. destruct (normal_absolute_app a b Ha Hn) as [_ Hb].
  pose proof (plain_not_empty b Hb) as Hb'.
  unfold join. rewrite filter_cons_True by exact Ha.
  rewrite filter_cons_True by exact Hb'. rewrite filter_nil.
  by apply normalize_normal.
Qed.

Lemma join_three_normal a b c :
  a <> "" ->
  normal_absolute (a +:+ String sep (b +:+ String sep c)) = true ->
  join [a; b; c] = a +:+ String sep (b +:+ String sep c).
Proof.
  intros Ha Hn. destruct (normal_absolute_app a _ Ha Hn) as [_ Hbc].
  rewrite split_app, forallb_app in Hbc. apply andb_prop in Hbc as [Hb Hc].
  pose proof (plain_not_empty b Hb) as Hb'.
  pose proof (plain_not_empty c Hc) as Hc'.
  unfold join. rewrite filter_cons_True by exact Ha.
  rewrite filter_cons_True by exact Hb'.
  rewrite filter_cons_True by exact Hc'. rewrite filter_nil.
  by apply normalize_normal.
Qed.

End PathFacts.

Section Properties.
Context `{Vendor}.

Lemma contents_appended (path data : string) (w : World) :
  contents (appended path data w) path = contents w path +:+ data.
Proof. unfold contents, appended; simpl. by rewrite lookup_insert_eq. Qed.

Lemma files_appended_other (path other data : string) (w : World) :
  other <> path -> files (appended path data w) !! other = files w !! other.
Proof. intros Hne. unfold appended; simpl. by rewrite lookup_insert_ne. Qed.

Lemma contents_printed (text path : string) (w : World) :
  contents (printed text w) path = contents w path.
Proof. reflexivity. Qed.

Lemma contents_ticked (path : string) (w : World) :
  contents (ticked w) path = contents w path.
Proof. reflexivity. Qed.

Lemma append_assoc (a b c : string) : (a +:+ b) +:+ c = a +:+ (b +:+ c).
Proof.
  induction a as [|x a IH]; [reflexivity|].
  rewrite !append_cons. by rewrite IH.
Qed.

Lemma log_below (s : State) level message details :
  (level < minimumLogLevel (this s))%Z ->
  log level message details s = Return tt s.
Proof.
  intros Hlt. unfold log, bind, get_this.
  apply Z.ltb_lt in Hlt. rewrite Hlt. reflexivity.
Qed.

Lemma fileLog_no_stream (s : State) text :
  fileWriteStream (this s) = None -> fileLog text s = Return tt s.
Proof.
  intros Hnone. unfold fileLog, bind, get_this. rewrite Hnone. reflexivity.
Qed.

Lemma fileLog_written (s : State) text stream :
  fileWriteStream (this s) = Some stream ->
  write_fails (world s) (ws_path stream) = false ->
  fileLog text s =
    Return tt (in_world s (appended (ws_path stream) (text +:+ LF) (world s))).
Proof.
  intros Hsome Hok. unfold fileLog, bind, get_this. rewrite Hsome.
  unfold lift, stream_write. rewrite Hok. reflexivity.
Qed.

Lemma fileLog_lost (s : State) text stream :
  fileWriteStream (this s) = Some stream ->
  write_fails (world s) (ws_path stream) = true ->
  fileLog text s = Return tt (in_world s (unwritten (ws_path stream) (world s))).
Proof.
  intros Hsome Hbad. unfold fileLog, bind, get_this. rewrite Hsome.
  unfold lift, stream_write. rewrite Hbad. reflexivity.
Qed.

Lemma consoleLog_printed (s : State) level text :
  stdout_broken (world s) = false ->
  consoleLog level text s =
    Return tt (in_world s (printed (colorize (this s) level text) (world s))).
Proof.
  intros Hok. unfold consoleLog, bind, get_this, lift, console_log.
  rewrite Hok. reflexivity.
Qed.

Lemma consoleLog_lost (s : State) level text :
  stdout_broken (world s) = true ->
  consoleLog level text s = Return tt s.
Proof.
  intros Hbad. unfold consoleLog, bind, get_this, lift, console_log.
  rewrite Hbad. destruct s; reflexivity.
Qed.

(** What [log] does with a record that passes the filter: it reads the
    clock, prints, and hands the same text to [fileLog] when file logging
    is on. *)
Lemma log_passes (s : State) level message details :
  (minimumLogLevel (this s) <= level)%Z ->
  log level message details s =
    let text := fullLog (this s) level (stamp (world s)) message details in
    match consoleLog level text (in_world s (ticked (world s))) with
    | Return _ s' => if logToFile (this s') then fileLog text s' else Return tt s'
    | Throw e s' => Throw e s'
    end.
Proof.
  intros Hge. unfold log at 1. unfold bind at 1. unfold get_this at 1.
  apply Z.ltb_ge in Hge. rewrite Hge.
  unfold bind at 1. unfold getTimestamp, bind at 1.
  unfold lift, Date_toISOString, read_clock, ret. cbn beta iota.
  unfold bind at 1. fold (ticked (world s)). fold (stamp (world s)).
  fold (in_world s (ticked (world s))).
  destruct (consoleLog level _ _) as [[] s'|e s']; [|reflexivity].
  unfold bind at 1. unfold get_this.
  destruct (logToFile (this s')); reflexivity.
Qed.

Lemma fileLog_frame (s : State) text :
  this (final (fileLog text s)) = this s /\
  stdout (world (final (fileLog text s))) = stdout (world s).
Proof.
  destruct (fileWriteStream (this s)) as [stream|] eqn:Hs.
  - destruct (write_fails (world s) (ws_path stream)) eqn:Hw.
    + rewrite (fileLog_lost _ _ _ Hs Hw). auto.
    + rewrite (fileLog_written _ _ _ Hs Hw). auto.
  - rewrite (fileLog_no_stream _ _ Hs). auto.
Qed.

(** With a working console, a record that passes the filter puts exactly
    one more entry on the console. *)
Lemma log_console_line (s : State) level message details :
  (minimumLogLevel (this s) <= level)%Z ->
  stdout_broken (world s) = false ->
  stdout (world (final (log level message details s))) =
    (stdout (world s) ++
      [colorize (this s) level
         (fullLog (this s) level (stamp (world s)) message details)])%list.
Proof.
  intros Hge Hok. rewrite log_passes by exact Hge. cbv zeta.
  rewrite consoleLog_printed by exact Hok.
  destruct (logToFile _); [|reflexivity].
  match goal with
  | |- context [fileLog ?text ?st] =>
      destruct (fileLog_frame st text) as [_ Hout]; rewrite Hout
  end.
  reflexivity.
Qed.

Lemma colour_of_unmapped level :
  ~ In level PieLogLevel.levels -> colorMapping !! level = None.
Proof.
  intros Hout. unfold colorMapping.
  repeat (rewrite lookup_insert_ne;
          [|intros <-; apply Hout; unfold PieLogLevel.levels; simpl; tauto]).
  apply lookup_empty.
Qed.

(** C9: [PieLogLevel.getLevelStr] is total.  The five defined levels 10,
    20, 30, 40 and 50 give ["DEBUG"], ["INFO"], ["WARNING"], ["ERROR"] and
    ["CRITICAL"]; every other level gives ["UNKNOWN"]; and a [log] call
    at such a level that passes the filter still prints a line, whose
    level column reads ["UNKNOWN"]. *)
Theorem C9_getLevelStr_total :
  PieLogLevel.getLevelStr 10 = "DEBUG" /\
  PieLogLevel.getLevelStr 20 = "INFO" /\
  PieLogLevel.getLevelStr 30 = "WARNING" /\
  PieLogLevel.getLevelStr 40 = "ERROR" /\
  PieLogLevel.getLevelStr 50 = "CRITICAL" /\
  (forall level : Z,
      ~ In level PieLogLevel.levels ->
      PieLogLevel.getLevelStr level = "UNKNOWN") /\
  (forall (s : State) (level : Z) message details,
      ~ In level PieLogLevel.levels ->
      (minimumLogLevel (this s) <= level)%Z ->
      stdout_broken (world s) = false ->
      let t := this s in
      let line :=
        padEnd (stamp (world s)) (timestampPadding t) +:+ " " +:+
        padEnd "UNKNOWN" (logLevelPadding t) +:+ " " +:+
        padEnd ("[" +:+ loggerName t +:+ "]") (filePathPadding t) +:+ ": " +:+
        message in
      stdout (world (final (log level message details s))) =
        (stdout (world s) ++
          [colorize t level
             (if truthy details then line +:+ LF +:+ util_inspect details
              else line)])%list).
Proof.
  assert (Hunknown : forall level : Z,
             ~ In level PieLogLevel.levels ->
             PieLogLevel.getLevelStr level = "UNKNOWN").
  { intros level Hout. unfold PieLogLevel.getLevelStr.
    repeat match goal with
           | |- context [(level =? ?k)%Z] =>
               destruct (Z.eqb_spec level k) as [->|_];
               [exfalso; apply Hout; unfold PieLogLevel.levels; simpl; tauto|]
           end.
    reflexivity. }
  repeat split; try reflexivity; [exact Hunknown|].
  intros s level message details Hout Hge Hok. cbv zeta.
  rewrite log_console_line by assumption.
  unfold fullLog. rewrite (Hunknown level Hout). reflexivity.
Qed.

(** C4: [log] emits exactly when [level >= minimumLogLevel].  Below the
    minimum the call returns at once and leaves the whole state (clock,
    console, files, object) as it was; at or above it, the minimum
    included, a working console receives exactly one more entry, the
    formatted text, and an open, working file stream receives that text
    and a line feed. *)
Theorem C4_level_filter (s : State) (level : Z) message details :
  ((level < minimumLogLevel (this s))%Z ->
     log level message details s = Return tt s) /\
  (stdout_broken (world s) = false ->
     ((minimumLogLevel (this s) <= level)%Z <->
      stdout (world (final (log level message details s))) =
        (stdout (world s) ++
          [colorize (this s) level
             (fullLog (this s) level (stamp (world s)) message details)])%list)) /\
  (forall stream,
     (minimumLogLevel (this s) <= level)%Z ->
     stdout_broken (world s) = false ->
     logToFile (this s) = true ->
     fileWriteStream (this s) = Some stream ->
     write_fails (world s) (ws_path stream) = false ->
     contents (world (final (log level message details s))) (ws_path stream) =
       contents (world s) (ws_path stream) +:+
         fullLog (this s) level (stamp (world s)) message details +:+ LF).
Proof.
  split; [apply log_below|]. split.
  - intros Hok. split; [intros Hge; apply log_console_line; assumption|].
    intros Hout. destruct (Z.lt_ge_cases level (minimumLogLevel (this s)))
      as [Hlt|Hge]; [|exact Hge].
    rewrite log_below in Hout by exact Hlt. simpl in Hout.
    apply (f_equal (@List.length string)) in Hout.
    rewrite length_app in Hout. simpl in Hout. lia.
  - intros stream Hge Hok Hfile Hstream Hw.
    rewrite log_passes by exact Hge. cbv zeta.
    rewrite consoleLog_printed by exact Hok.
    cbn [in_world this]. rewrite Hfile.
    erewrite fileLog_written by (cbn [in_world this world]; eauto).
    cbn [in_world this world final].
    by rewrite contents_appended, contents_printed, contents_ticked.
Qed.

(** C10: the file sink writes only when a write stream exists.  With
    [logToFile] on and no stream, [fileLog] returns without touching
    anything, [log] leaves every file as it was and returns on every host,
    and with a working console the call returns after the console
    write. *)
Theorem C10_missing_stream (s : State) (level : Z) message details text :
  logToFile (this s) = true ->
  fileWriteStream (this s) = None ->
  fileLog text s = Return tt s /\
  files (world (final (log level message details s))) = files (world s) /\
  returned (log level message details s) = true /\
  (stdout_broken (world s) = false ->
   (minimumLogLevel (this s) <= level)%Z ->
   log level message details s =
     Return tt
       (in_world s
          (printed
             (colorize (this s) level
                (fullLog (this s) level (stamp (world s)) message details))
             (ticked (world s))))).
Proof.
  intros Hfile Hnone.
  split; [apply fileLog_no_stream; exact Hnone|].
  destruct (Z.lt_ge_cases level (minimumLogLevel (this s))) as [Hlt|Hge].
  { rewrite log_below by exact Hlt.
    split; [reflexivity|]. split; [reflexivity|]. lia. }
  rewrite log_passes by exact Hge. cbv zeta.
  destruct (stdout_broken (world s)) eqn:Hout.
  - rewrite consoleLog_lost by exact Hout.
    cbn [in_world this]. rewrite Hfile.
    rewrite fileLog_no_stream by exact Hnone.
    split; [reflexivity|]. split; [reflexivity|discriminate].
  - rewrite consoleLog_printed by exact Hout.
    cbn [in_world this]. rewrite Hfile.
    rewrite fileLog_no_stream by exact Hnone.
    split; [reflexivity|]. split; [reflexivity|]. reflexivity.
Qed.

(** C8 (as amended): the console sink.  With [colorful] on, the text goes
    through the chalk style of its level: cyan, green, yellow, red and
    magenta for DEBUG, INFO, WARNING, ERROR and CRITICAL, five different
    styles; a level outside those five is not left uncoloured: it goes
    through [chalk.white], a sixth style, different from the five.  With
    [colorful] off the text is printed as it is. *)
Theorem C8_console_colours (s : State) (level : Z) (text : string) :
  stdout_broken (world s) = false ->
  consoleLog level text s =
    Return tt (in_world s (printed (colorize (this s) level text) (world s))) /\
  (colorful (this s) = false -> colorize (this s) level text = text) /\
  (colorful (this s) = true ->
     colorize (this s) level text = chalk (colour_of level) text) /\
  colour_of PieLogLevel.DEBUG = Chalk.cyan /\
  colour_of PieLogLevel.INFO = Chalk.green /\
  colour_of PieLogLevel.WARNING = Chalk.yellow /\
  colour_of PieLogLevel.ERROR = Chalk.red /\
  colour_of PieLogLevel.CRITICAL = Chalk.magenta /\
  NoDup (map colour_of PieLogLevel.levels) /\
  ~ In Chalk.white (map colour_of PieLogLevel.levels) /\
  (~ In level PieLogLevel.levels -> colour_of level = Chalk.white) /\
  (~ In level PieLogLevel.levels ->
   colorful (this s) = true ->
   colorize (this s) level text = chalk Chalk.white text).
Proof.
  intros Hok. split; [apply consoleLog_printed; exact Hok|].
  split; [intros Hplain; unfold colorize; by rewrite Hplain|].
  split.
  { intros Hcol. unfold colorize, colour_of. rewrite Hcol.
    by destruct (colorMapping !! level). }
  repeat (split; [reflexivity|]).
  split; [apply (bool_decide_unpack _); vm_compute; exact I|].
  split.
  { vm_compute. intros Hin.
    repeat match goal with
           | H : _ \/ _ |- _ => destruct H as [H|H]; [discriminate H|]
           end.
    exact Hin. }
  split.
  - intros Hout. unfold colour_of. by rewrite colour_of_unmapped.
  - intros Hout Hcol. unfold colorize. rewrite Hcol.
    by rewrite colour_of_unmapped.
Qed.

(** A record that passes the filter, on a host where both sinks work. *)
Lemma log_both_sinks (s : State) level message details stream :
  (minimumLogLevel (this s) <= level)%Z ->
  stdout_broken (world s) = false ->
  logToFile (this s) = true ->
  fileWriteStream (this s) = Some stream ->
  write_fails (world s) (ws_path stream) = false ->
  log level message details s =
    let text := fullLog (this s) level (stamp (world s)) message details in
    Return tt
      (in_world s
         (appended (ws_path stream) (text +:+ LF)
            (printed (colorize (this s) level text) (ticked (world s))))).
Proof.
  intros Hge Hok Hfile Hstream Hw.
  rewrite log_passes by exact Hge. cbv zeta.
  rewrite consoleLog_printed by exact Hok.
  cbn [in_world this]. rewrite Hfile.
  erewrite fileLog_written by (cbn [in_world this world]; eauto).
  reflexivity.
Qed.

Lemma length_formatted (t : Instance) clk tick (es : list Emission) :
  List.length (formatted t clk tick es) = List.length es.
Proof.
  revert tick. induction es as [|e es IH]; intros tick; simpl; [reflexivity|].
  by rewrite IH.
Qed.

(** A run of emissions that all pass the filter, on a host where both
    sinks work: the run returns, the object is as before, the log file
    grew by the formatted texts in call order, no other file changed, and
    the console grew by the same texts in the same order. *)
Lemma emit_all_both_sinks (es : list Emission) :
  forall (s : State) (stream : WriteStream),
    logToFile (this s) = true ->
    fileWriteStream (this s) = Some stream ->
    Forall (fun e => (minimumLogLevel (this s) <= em_level e)%Z) es ->
    stdout_broken (world s) = false ->
    write_fails (world s) (ws_path stream) = false ->
    exists s',
      emit_all es s = Return tt s' /\
      this s' = this s /\
      contents (world s') (ws_path stream) =
        contents (world s) (ws_path stream) +:+
          as_lines (formatted (this s) (clock (world s)) (ticks (world s)) es) /\
      (forall other, other <> ws_path stream ->
                     files (world s') !! other = files (world s) !! other) /\
      stdout (world s') =
        (stdout (world s) ++
           shown (this s) (clock (world s)) (ticks (world s)) es)%list.
Proof.
  induction es as [|e es IH]; intros s stream Hfile Hstream Hall Hok Hw.
  - exists s. simpl. rewrite append_empty_r, app_nil_r.
    repeat split; reflexivity.
  - inversion Hall as [|e' es' Hge Hrest]; subst.
    simpl emit_all. unfold bind, emit.
    rewrite (log_both_sinks s _ _ _ stream) by assumption. cbv zeta.
    set (text := fullLog (this s) (em_level e) (stamp (world s))
                   (em_message e) (em_details e)).
    set (s1 := in_world s _).
    destruct (IH s1 stream) as (s' & Hrun & Hthis & Hcont & Hothers & Hout);
      try assumption.
    exists s'. split; [exact Hrun|]. split; [exact Hthis|].
    split; [|split].
    + rewrite Hcont. subst s1. cbn [in_world world this].
      rewrite contents_appended, contents_printed, contents_ticked.
      simpl. fold (stamp (world s)). fold text.
      by rewrite !append_assoc.
    + intros other Hne. rewrite Hothers by exact Hne.
      subst s1. cbn [in_world world]. by rewrite files_appended_other.
    + rewrite Hout. subst s1. cbn [in_world world this].
      simpl. fold (stamp (world s)). fold text.
      by rewrite <- app_assoc.
Qed.

(** C2: emissions made by one sequential caller that all pass the filter
    reach the files without loss and in call order.  With file logging on
    and both sinks working, the run returns; the current log file grew by
    exactly the formatted texts, one per call, in the order of the calls;
    no other file changed, so reading any set of backup files that did
    not exist before the run, followed by the current file, gives what the
    current file held before followed by those texts; the console shows
    the same texts in the same order.  The bound on the total number of
    bytes is the claim's proviso. *)
Theorem C2_emissions_kept_in_order
    (s : State) (stream : WriteStream) (es : list Emission)
    (backups : list string) :
  let texts := formatted (this s) (clock (world s)) (ticks (world s)) es in
  logToFile (this s) = true ->
  fileWriteStream (this s) = Some stream ->
  Forall (fun e => (minimumLogLevel (this s) <= em_level e)%Z) es ->
  stdout_broken (world s) = false ->
  write_fails (world s) (ws_path stream) = false ->
  (Z.of_nat (String.length (as_lines texts)) <=
     (maxBackupFiles (this s) + 1) * logFileSizeLimit (this s))%Z ->
  Forall (fun b => b <> ws_path stream /\ files (world s) !! b = None) backups ->
  exists s',
    emit_all es s = Return tt s' /\
    List.length texts = List.length es /\
    contents (world s') (ws_path stream) =
      contents (world s) (ws_path stream) +:+ as_lines texts /\
    read_set (world s') (backups ++ [ws_path stream]) =
      contents (world s) (ws_path stream) +:+ as_lines texts /\
    stdout (world s') =
      (stdout (world s) ++
         shown (this s) (clock (world s)) (ticks (world s)) es)%list.
Proof.
  intros texts Hfile Hstream Hall Hok Hw _ Hfresh.
  destruct (emit_all_both_sinks es s stream)
    as (s' & Hrun & _ & Hcont & Hothers & Hout); try assumption.
  exists s'. split; [exact Hrun|]. split.
  { apply length_formatted. }
  split; [exact Hcont|]. split; [|exact Hout].
  assert (Hbackups : read_set (world s') backups = "").
  { clear -Hothers Hfresh.
    induction Hfresh as [|b bs [Hne Hnone] _ IH]; [reflexivity|].
    simpl. unfold contents at 1.
    rewrite Hothers by exact Hne. rewrite Hnone. simpl. exact IH. }
  clear -Hbackups Hcont.
  induction backups as [|b bs IH].
  - simpl. by rewrite append_empty_r.
  - revert Hbackups. simpl.
    destruct (contents (world s') b) as [|c rest] eqn:Hb.
    + simpl. intros Hbs. change ("" +:+ ?x) with x. by apply IH.
    + rewrite append_cons. discriminate.
Qed.

Lemma log_this (s : State) level message details :
  this (final (log level message details s)) = this s.
Proof.
  destruct (Z.lt_ge_cases level (minimumLogLevel (this s))) as [Hlt|Hge].
  { by rewrite log_below. }
  rewrite log_passes by exact Hge. cbv zeta.
  destruct (stdout_broken (world s)) eqn:Hout.
  - rewrite consoleLog_lost by exact Hout.
    destruct (logToFile _); [|reflexivity].
    match goal with
    | |- context [fileLog ?text ?st] =>
        destruct (fileLog_frame st text) as [Hthis _]; rewrite Hthis
    end.
    reflexivity.
  - rewrite consoleLog_printed by exact Hout.
    destruct (logToFile _); [|reflexivity].
    match goal with
    | |- context [fileLog ?text ?st] =>
        destruct (fileLog_frame st text) as [Hthis _]; rewrite Hthis
    end.
    reflexivity.
Qed.

Lemma emit_all_this (es : list Emission) (s : State) :
  this (final (emit_all es s)) = this s.
Proof.
  revert s. induction es as [|e es IH]; intros s; [reflexivity|].
  simpl emit_all. unfold bind, emit.
  pose proof (log_this s (em_level e) (em_message e) (em_details e)) as Hlog.
  destruct (log _ _ _ s) as [[] s1|err s1]; simpl in Hlog.
  - by rewrite IH.
  - exact Hlog.
Qed.

End Properties.

(** *** Construction *)

Lemma setupLogDirectory_throws (s : State) :
  let logDir :=
    Path.join [homedir (world s); logDirectory (this s); startTimestamp (this s)] in
  present (world s) logDir = false ->
  mkdir_fails (world s) logDir = true ->
  setupLogDirectory s = Throw (IOError "mkdir" logDir) s.
Proof.
  intros logDir Hnew Hfail. subst logDir.
  destruct s as [t w]. cbn [this world] in *.
  set (logDir := Path.join _) in *.
  unfold setupLogDirectory, bind, get_this, lift, os_homedir, fs_existsSync.
  cbn [this world]. fold logDir. fold (present w logDir).
  rewrite Hnew. unfold fs_mkdirSync. cbn [negb this world].
  by rewrite Hfail.
Qed.

Lemma setupLogDirectory_returns (s : State) :
  let logDir :=
    Path.join [homedir (world s); logDirectory (this s); startTimestamp (this s)] in
  let path :=
    Path.join [logDir;
               loggerName (this s) +:+ "-" +:+ startTimestamp (this s) +:+ ".log"] in
  present (world s) logDir || negb (mkdir_fails (world s) logDir) = true ->
  exists s',
    setupLogDirectory s = Return tt s' /\
    logFilePath (this s') = Some path /\
    fileWriteStream (this s') =
      Some {| ws_id := List.length (open_streams (world s)); ws_path := path |} /\
    startTimestamp (this s') = startTimestamp (this s) /\
    logToFile (this s') = logToFile (this s) /\
    stdout (world s') = stdout (world s) /\
    stdout_broken (world s') = stdout_broken (world s) /\
    write_fails (world s') = write_fails (world s).
Proof.
  intros logDir path Hcan. subst logDir path.
  destruct s as [t w]. cbn [this world] in *.
  set (logDir := Path.join [homedir w; _; _]) in *.
  set (path := Path.join [logDir; _]) in *.
  unfold setupLogDirectory, bind, get_this, lift, os_homedir, fs_existsSync.
  cbn [this world]. fold logDir. fold (present w logDir). fold path.
  destruct (present w logDir) eqn:Hp.
  - unfold ret. cbn [negb this world]. eexists. repeat split; reflexivity.
  - simpl in Hcan. apply negb_true_iff in Hcan.
    unfold fs_mkdirSync. cbn [negb this world]. rewrite Hcan.
    eexists. repeat split; reflexivity.
Qed.


Lemma new_without_file (o : Options) (w : World) :
  default true (opt_logToFile o) = false ->
  exists s,
    new o w = Return tt s /\
    world s = ticked w /\
    logToFile (this s) = false /\
    fileWriteStream (this s) = None.
Proof.
  intros Hoff. unfold new, read_clock. rewrite Hoff.
  eexists. repeat split; reflexivity.
Qed.

Lemma new_throws (o : Options) (w : World) :
  default true (opt_logToFile o) = true ->
  present w (session_dir o w) = false ->
  mkdir_fails w (session_dir o w) = true ->
  exists s,
    new o w = Throw (IOError "mkdir" (session_dir o w)) s /\
    world s = ticked w /\
    logFilePath (this s) = None /\
    fileWriteStream (this s) = None.
Proof.
  intros Hon Hnew Hfail. unfold new, read_clock. rewrite Hon.
  eexists. split; [apply setupLogDirectory_throws; assumption|].
  repeat split; reflexivity.
Qed.

Lemma new_returns (o : Options) (w : World) :
  default true (opt_logToFile o) = true ->
  present w (session_dir o w) || negb (mkdir_fails w (session_dir o w)) = true ->
  exists s,
    new o w = Return tt s /\
    logToFile (this s) = true /\
    startTimestamp (this s) = session_stamp w /\
    logFilePath (this s) = Some (session_file o w) /\
    fileWriteStream (this s) =
      Some {| ws_id := List.length (open_streams w);
              ws_path := session_file o w |} /\
    stdout (world s) = stdout w /\
    stdout_broken (world s) = stdout_broken w /\
    write_fails (world s) = write_fails w.
Proof.
  intros Hon Hcan. unfold new, read_clock. rewrite Hon.
  match goal with
  | |- context [setupLogDirectory ?s0] =>
      destruct (setupLogDirectory_returns s0 Hcan)
        as (s & Hrun & Hpath & Hstream & Hstamp & Hfile & Hout & Hbroken & Hw)
  end.
  exists s. split; [exact Hrun|].
  repeat split; assumption.
Qed.

(** C5 (as amended): construction with file logging on when the session
    directory is missing.  If the directory cannot be created, the error of
    [mkdirSync] leaves the constructor: construction is aborted, no
    instance comes back, nothing was printed and no file was touched.  If
    the directory is there or can be created, construction completes with
    the log file path set and a new write stream on it. *)
Theorem C5_construction_and_directory (o : Options) (w : World) :
  default true (opt_logToFile o) = true ->
  (present w (session_dir o w) = false ->
   mkdir_fails w (session_dir o w) = true ->
   exists s,
     new o w = Throw (IOError "mkdir" (session_dir o w)) s /\
     stdout (world s) = stdout w /\
     files (world s) = files w /\
     fileWriteStream (this s) = None) /\
  (present w (session_dir o w) || negb (mkdir_fails w (session_dir o w)) = true ->
   exists s,
     new o w = Return tt s /\
     logToFile (this s) = true /\
     logFilePath (this s) = Some (session_file o w) /\
     fileWriteStream (this s) =
       Some {| ws_id := List.length (open_streams w);
               ws_path := session_file o w |}).
Proof.
  intros Hon. split.
  - intros Hnew Hfail.
    destruct (new_throws o w Hon Hnew Hfail) as (s & Hrun & Hworld & _ & Hstream).
    exists s. rewrite Hworld. auto.
  - intros Hcan.
    destruct (new_returns o w Hon Hcan)
      as (s & Hrun & Hfile & _ & Hpath & Hstream & _).
    exists s. auto.
Qed.

Section Lifetime.
Context `{Vendor}.

(** C7: the log file path.  Construction with file logging on, on a host
    where the session directory exists or can be created, takes the
    session timestamp from the clock once, with every colon replaced by
    a hyphen, and sets [logFilePath] to
    [join(join(home, logDirectory, timestamp), loggerName-timestamp.log)],
    [logDirectory] being ["logs"] unless configured.  When the home
    directory and the configured parts form a normalized absolute path,
    that is literally [home/logDirectory/timestamp/loggerName-timestamp.log].
    No run of emission calls, whether it returns or throws, changes the
    object, so the timestamp, the path and the stream stay as
    constructed. *)
Theorem C7_log_file_path (o : Options) (w : World) (es : list Emission) :
  let ts := replace_colons (clock w (ticks w)) in
  let root := default "logs" (opt_logDirectory o) in
  let file := opt_loggerName o +:+ "-" +:+ ts +:+ ".log" in
  default true (opt_logToFile o) = true ->
  present w (session_dir o w) || negb (mkdir_fails w (session_dir o w)) = true ->
  exists s,
    new o w = Return tt s /\
    startTimestamp (this s) = ts /\
    logFilePath (this s) =
      Some (Path.join [Path.join [homedir w; root; ts]; file]) /\
    (homedir w <> "" ->
     Path.normal_absolute
       (homedir w +:+ "/" +:+ root +:+ "/" +:+ ts +:+ "/" +:+ file) = true ->
     logFilePath (this s) =
       Some (homedir w +:+ "/" +:+ root +:+ "/" +:+ ts +:+ "/" +:+ file)) /\
    this (final (emit_all es s)) = this s.
Proof.
  intros ts root file Hon Hcan.
  destruct (new_returns o w Hon Hcan)
    as (s & Hrun & _ & Hstamp & Hpath & _).
  exists s. split; [exact Hrun|]. split; [exact Hstamp|].
  split; [exact Hpath|]. split; [|apply emit_all_this].
  intros Hhome Hnormal. rewrite Hpath. f_equal.
  unfold session_file, session_dir, session_stamp. fold ts root file.
  assert (Hassoc :
    homedir w +:+ "/" +:+ root +:+ "/" +:+ ts +:+ "/" +:+ file
    = (homedir w +:+ String Path.sep (root +:+ String Path.sep ts))
        +:+ String Path.sep file).
  { symmetry. rewrite append_assoc, append_cons, append_assoc, append_cons.
    reflexivity. }
  rewrite Hassoc in Hnormal. rewrite Hassoc.
  assert (Hinner : homedir w +:+ String Path.sep (root +:+ String Path.sep ts) <> "").
  { destruct (homedir w); [congruence|discriminate]. }
  destruct (PathFacts.normal_absolute_app _ _ Hinner Hnormal) as [Hdir _].
  rewrite (PathFacts.join_three_normal _ _ _ Hhome Hdir).
  by apply PathFacts.join_two_normal.
Qed.

Lemma fileLog_returns (s : State) text : returned (fileLog text s) = true.
Proof.
  destruct (fileWriteStream (this s)) as [stream|] eqn:Hs.
  - destruct (write_fails (world s) (ws_path stream)) eqn:Hw.
    + by rewrite (fileLog_lost _ _ _ Hs Hw).
    + by rewrite (fileLog_written _ _ _ Hs Hw).
  - by rewrite (fileLog_no_stream _ _ Hs).
Qed.

Lemma log_returns (s : State) level message details :
  returned (log level message details s) = true.
Proof.
  destruct (Z.lt_ge_cases level (minimumLogLevel (this s))) as [Hlt|Hge].
  { by rewrite log_below. }
  rewrite log_passes by exact Hge. cbv zeta.
  destruct (stdout_broken (world s)) eqn:Hout.
  - rewrite consoleLog_lost by exact Hout.
    destruct (logToFile _); [apply fileLog_returns|reflexivity].
  - rewrite consoleLog_printed by exact Hout.
    destruct (logToFile _); [apply fileLog_returns|reflexivity].
Qed.

Lemma emit_all_returns (es : list Emission) (s : State) :
  returned (emit_all es s) = true.
Proof.
  revert s. induction es as [|e es IH]; intros s; [reflexivity|].
  simpl emit_all. unfold bind, emit.
  pose proof (log_returns s (em_level e) (em_message e) (em_details e)) as Hlog.
  destruct (log _ _ _ s) as [[] s1|err s1]; [apply IH|discriminate].
Qed.


End Lifetime.

(** *** The logger on the concrete host *)

(** C1: the rotation scenario, run on the code.  A logger with a size
    limit of 100 bytes and 2 backup files makes three [info] calls of 40
    bytes each (line feed included).  Every write was appended to the
    current file, which now holds all three lines, 120 bytes; it is the only
    file on the disk: nothing was rotated and no backup generation
    exists. *)
Theorem C1_three_writes_no_rotation :
  exists s,
    Host.three_infos (Host.small 2) Host.healthy = Return tt s /\
    logFileSizeLimit (this s) = 100%Z /\
    maxBackupFiles (this s) = 2%Z /\
    fileWriteStream (this s) = Some {| ws_id := 0; ws_path := Host.small_log |} /\
    map (fun line => String.length (line +:+ LF)) Host.three_lines
      = [40; 40; 40]%nat /\
    files (world s) = {[ Host.small_log := as_lines Host.three_lines ]} /\
    String.length (contents (world s) Host.small_log) = 120%nat.
Proof.
  eexists. split; [vm_compute; reflexivity|].
  repeat split; vm_compute; reflexivity.
Qed.

(** C3: the same scenario with [maxBackupFiles = 0], run on the code.
    After three writes of 40 bytes against a limit of 100 the current file
    was not replaced by a fresh one: it still holds all three lines, and it
    is the only file on the disk. *)
Theorem C3_no_backups_no_truncation :
  exists s,
    Host.three_infos (Host.small 0) Host.healthy = Return tt s /\
    logFileSizeLimit (this s) = 100%Z /\
    maxBackupFiles (this s) = 0%Z /\
    files (world s) = {[ Host.small_log := as_lines Host.three_lines ]} /\
    String.length (contents (world s) Host.small_log) = 120%nat.
Proof.
  eexists. split; [vm_compute; reflexivity|].
  repeat split; vm_compute; reflexivity.
Qed.

(** The claim C5 as stated fails: on a host that refuses to create
    directories, construction with the default options (file logging on)
    does not complete. *)
Lemma C5_counterexample :
  default true (opt_logToFile (Host.defaults "app")) = true /\
  present Host.readonly (session_dir (Host.defaults "app") Host.readonly) = false /\
  mkdir_fails Host.readonly (session_dir (Host.defaults "app") Host.readonly) = true /\
  ~ exists s, new (Host.defaults "app") Host.readonly = Return tt s.
Proof.
  split; [reflexivity|]. split; [vm_compute; reflexivity|].
  split; [reflexivity|].
  intros [s Hs].
  assert (Hthrown : returned (new (Host.defaults "app") Host.readonly) = false)
    by (vm_compute; reflexivity).
  rewrite Hs in Hthrown. discriminate.
Qed.

(** The claim C8 as stated fails: on a colour terminal a record at
    level 99, which is none of the five levels, is not printed uncoloured:
    the console shows it between the escape codes of white. *)
Lemma C8_counterexample :
  ~ In 99%Z PieLogLevel.levels /\
  colorful (this (Host.session (Host.defaults "app") Host.healthy)) = true /\
  stdout
    (world (final (consoleLog (H := Host.ansi) 99 "hello"
                     (Host.session (Host.defaults "app") Host.healthy))))
    = [Host.ESC +:+ "[37m" +:+ "hello" +:+ Host.ESC +:+ "[39m"] /\
  colorize (H := Host.ansi)
    (this (Host.session (Host.defaults "app") Host.healthy)) 99 "hello"
    <> "hello".
Proof.
  split; [vm_compute; lia|]. split; [vm_compute; reflexivity|].
  split; [vm_compute; reflexivity|]. vm_compute. discriminate.
Qed.

(** *** The theorems at concrete inputs *)

Lemma C9_getLevelStr_total_witness :
  PieLogLevel.getLevelStr 99 = "UNKNOWN" /\
  stdout (world (final (log (H := Host.ansi) 99 "hello" JsNull
                          (Host.session (Host.defaults "app") Host.healthy))))
    = [chalk (Vendor := Host.ansi) Chalk.white
         "2024-01-02 03:04:05.010        UNKNOWN    [app]                         : hello"].
Proof.
  destruct (@C9_getLevelStr_total Host.ansi)
    as (_ & _ & _ & _ & _ & Hunknown & Hline).
  split.
  - apply Hunknown. vm_compute. lia.
  - rewrite Hline.
    + vm_compute. reflexivity.
    + vm_compute. lia.
    + vm_compute. discriminate.
    + vm_compute. reflexivity.
Defined.

Lemma C4_level_filter_witness :
  log (H := Host.ansi) PieLogLevel.DEBUG "hello" JsNull
      (Host.session (Host.defaults "app") Host.healthy)
    = Return tt (Host.session (Host.defaults "app") Host.healthy) /\
  contents
    (world (final (log (H := Host.ansi) PieLogLevel.INFO "hello" JsNull
                     (Host.session (Host.defaults "app") Host.healthy))))
    Host.app_log
    = "2024-01-02 03:04:05.010        INFO       [app]                         : hello"
      +:+ LF.
Proof.
  split.
  - apply (proj1 (C4_level_filter (H := Host.ansi)
                    (Host.session (Host.defaults "app") Host.healthy)
                    PieLogLevel.DEBUG "hello" JsNull)).
    vm_compute. reflexivity.
  - etransitivity.
    + apply (proj2 (proj2 (C4_level_filter (H := Host.ansi)
                      (Host.session (Host.defaults "app") Host.healthy)
                      PieLogLevel.INFO "hello" JsNull))
               {| ws_id := 0; ws_path := Host.app_log |}).
      * vm_compute. discriminate.
      * vm_compute. reflexivity.
      * vm_compute. reflexivity.
      * vm_compute. reflexivity.
      * vm_compute. reflexivity.
    + vm_compute. reflexivity.
Defined.

Lemma C10_missing_stream_witness :
  fileLog "text" Host.unopened = Return tt Host.unopened /\
  files (world (final (log (H := Host.ansi) PieLogLevel.ERROR "hello" JsNull
                         Host.unopened)))
    = files (world Host.unopened).
Proof.
  destruct (C10_missing_stream (H := Host.ansi) Host.unopened
              PieLogLevel.ERROR "hello" JsNull "text")
    as (Hnoop & Hfiles & _).
  - vm_compute. reflexivity.
  - vm_compute. reflexivity.
  - split; [exact Hnoop|exact Hfiles].
Defined.

Lemma C8_console_colours_witness :
  consoleLog (H := Host.ansi) 99 "hello"
      (Host.session (Host.defaults "app") Host.healthy)
    = Return tt
        (in_world (Host.session (Host.defaults "app") Host.healthy)
           (printed
              (colorize (H := Host.ansi)
                 (this (Host.session (Host.defaults "app") Host.healthy))
                 99 "hello")
              (world (Host.session (Host.defaults "app") Host.healthy)))) /\
  colour_of 99 = Chalk.white.
Proof.
  destruct (C8_console_colours (H := Host.ansi)
              (Host.session (Host.defaults "app") Host.healthy) 99 "hello")
    as (Hrun & _ & _ & _ & _ & _ & _ & _ & _ & _ & Hdefault & _).
  - vm_compute. reflexivity.
  - split; [exact Hrun|]. apply Hdefault. vm_compute. lia.
Defined.

Lemma C2_emissions_kept_in_order_witness :
  exists s',
    emit_all (H := Host.ansi) Host.three_emissions
      (Host.session (Host.small 2) Host.healthy) = Return tt s' /\
    read_set (world s')
      [Host.small_log +:+ ".2"; Host.small_log +:+ ".1"; Host.small_log]
      = as_lines Host.three_lines.
Proof.
  destruct (C2_emissions_kept_in_order (H := Host.ansi)
              (Host.session (Host.small 2) Host.healthy)
              {| ws_id := 0; ws_path := Host.small_log |}
              Host.three_emissions
              [Host.small_log +:+ ".2"; Host.small_log +:+ ".1"])
    as (s' & Hrun & _ & _ & Hread & _).
  - vm_compute. reflexivity.
  - vm_compute. reflexivity.
  - repeat constructor; vm_compute; discriminate.
  - vm_compute. reflexivity.
  - vm_compute. reflexivity.
  - vm_compute. discriminate.
  - repeat constructor; vm_compute; (reflexivity || discriminate).
  - exists s'. split; [exact Hrun|].
    change (read_set (world s')
              ([Host.small_log +:+ ".2"; Host.small_log +:+ ".1"]
                 ++ [ws_path {| ws_id := 0; ws_path := Host.small_log |}])
            = as_lines Host.three_lines).
    rewrite Hread. vm_compute. reflexivity.
Defined.

Lemma C7_log_file_path_witness :
  exists s,
    new (Host.defaults "app") Host.healthy = Return tt s /\
    startTimestamp (this s) = "2024-01-02T03-04-05.000Z" /\
    logFilePath (this s) =
      Some "/home/u/logs/2024-01-02T03-04-05.000Z/app-2024-01-02T03-04-05.000Z.log" /\
    this (final (emit_all (H := Host.ansi) Host.three_emissions s)) = this s.
Proof.
  destruct (C7_log_file_path (H := Host.ansi) (Host.defaults "app") Host.healthy
              Host.three_emissions)
    as (s & Hrun & Hstamp & _ & Hliteral & Hsame).
  - vm_compute. reflexivity.
  - vm_compute. reflexivity.
  - exists s. split; [exact Hrun|]. split; [exact Hstamp|].
    split; [|exact Hsame].
    rewrite Hliteral.
    + vm_compute. reflexivity.
    + vm_compute. discriminate.
    + vm_compute. reflexivity.
Defined.

(** A configured log directory is taken under the home directory too. *)
Example session_file_configured :
  session_file
    {| opt_loggerName := "db"; opt_timezone := None;
       opt_timestampPadding := None; opt_logLevelPadding := None;
       opt_filePathPadding := None; opt_colorful := None;
       opt_minimumLogLevel := None; opt_logToFile := None;
       opt_logDirectory := Some "var/applogs";
       opt_logFileSizeLimit := None; opt_maxBackupFiles := None |}
    Host.healthy
  = "/home/u/var/applogs/2024-01-02T03-04-05.000Z/db-2024-01-02T03-04-05.000Z.log".
Proof. vm_compute. reflexivity. Qed.

Lemma C5_construction_and_directory_witness :
  exists s,
    new (Host.defaults "app") Host.readonly
      = Throw (IOError "mkdir" "/home/u/logs/2024-01-02T03-04-05.000Z") s /\
    fileWriteStream (this s) = None.
Proof.
  destruct (C5_construction_and_directory (Host.defaults "app") Host.readonly)
    as [Hthrows _].
  - vm_compute. reflexivity.
  - destruct Hthrows as (s & Hrun & _ & _ & Hstream).
    + vm_compute. reflexivity.
    + vm_compute. reflexivity.
    + exists s. split; [exact Hrun|exact Hstream].
Defined.


(** ** Further properties of the code *)

(** *** Strings *)

Lemma length_append (a b : string) :
  String.length (a +:+ b) = (String.length a + String.length b)%nat.
Proof.
  induction a as [|c a IH]; [reflexivity|].
  rewrite append_cons. simpl. by rewrite IH.
Qed.

Lemma length_spaces (n : nat) : String.length (spaces n) = n.
Proof. induction n as [|n IH]; simpl; congruence. Qed.

Lemma length_padEnd (s : string) (n : Z) :
  Z.of_nat (String.length (padEnd s n)) = Z.max (Z.of_nat (String.length s)) n.
Proof.
  unfold padEnd. rewrite length_append, length_spaces.
  generalize (String.length s). intros m. lia.
Qed.

Lemma append_cancel_r (a b c : string) : a +:+ c = b +:+ c -> a = b.
Proof.
  revert b. induction a as [|x a IH]; intros [|y b] Heq.
  - reflexivity.
  - apply (f_equal String.length) in Heq.
    rewrite append_cons in Heq. simpl in Heq.
    rewrite !length_append in Heq. simpl in Heq. lia.
  - apply (f_equal String.length) in Heq.
    rewrite append_cons in Heq. simpl in Heq.
    rewrite !length_append in Heq. simpl in Heq. lia.
  - rewrite !append_cons in Heq. injection Heq as -> Heq.
    by rewrite (IH b Heq).
Qed.

Lemma replace_first_T_date (date rest : string) :
  occurs "T" date = false ->
  replace_first_T (date +:+ String "T" rest) = date +:+ String " " rest.
Proof.
  induction date as [|c date IH]; intros Hno; [reflexivity|].
  simpl in Hno. apply orb_false_elim in Hno as [Hc Hno].
  rewrite !append_cons. simpl. rewrite Hc. by rewrite IH.
Qed.

Lemma slice_0_m1_last (s : string) (c : ascii) :
  slice_0_m1 (s +:+ String c "") = s.
Proof.
  induction s as [|d s IH]; [reflexivity|].
  rewrite append_cons. simpl. rewrite IH.
  destruct s; reflexivity.
Qed.

Lemma occurs_replace_colons (s : string) : occurs ":" (replace_colons s) = false.
Proof.
  induction s as [|c s IH]; [reflexivity|]. simpl. rewrite IH.
  destruct (Ascii.eqb_spec c ":") as [->|Hc]; [reflexivity|].
  rewrite orb_false_r. by apply Ascii.eqb_neq.
Qed.

Lemma length_replace_colons (s : string) :
  String.length (replace_colons s) = String.length s.
Proof. induction s as [|c s IH]; simpl; congruence. Qed.

Lemma replace_colons_none (s : string) :
  occurs ":" s = false -> replace_colons s = s.
Proof.
  induction s as [|c s IH]; intros Hno; [reflexivity|].
  simpl in Hno. apply orb_false_elim in Hno as [Hc Hno].
  simpl. rewrite Hc. by rewrite IH.
Qed.

(** *** Level names *)

(** X1: the names of the five defined levels are pairwise different, so a
    name other than ["UNKNOWN"] identifies its level; and ["UNKNOWN"] is
    returned for no defined level. *)
Theorem X1_level_names_identify_levels (l1 l2 : Z) :
  (In l1 PieLogLevel.levels ->
   PieLogLevel.getLevelStr l1 = PieLogLevel.getLevelStr l2 ->
   l1 = l2) /\
  (PieLogLevel.getLevelStr l1 = "UNKNOWN" <-> ~ In l1 PieLogLevel.levels).
Proof.
  assert (Hcases : forall l : Z,
             (In l PieLogLevel.levels /\ PieLogLevel.getLevelStr l <> "UNKNOWN")
             \/ (~ In l PieLogLevel.levels /\ PieLogLevel.getLevelStr l = "UNKNOWN")).
  { intros l. unfold PieLogLevel.getLevelStr, PieLogLevel.levels.
    repeat match goal with
           | |- context [(l =? ?k)%Z] =>
               destruct (Z.eqb_spec l k) as [->|?];
               [left; split; [simpl; tauto|discriminate]|]
           end.
    right. split; [simpl; intuition congruence|reflexivity]. }
  split.
  - intros Hin Heq.
    destruct (Hcases l2) as [[Hin2 _]|[_ Hun]].
    + unfold PieLogLevel.levels in Hin, Hin2. simpl in Hin, Hin2.
      repeat match goal with
             | H : _ \/ _ |- _ => destruct H as [<-|H]
             | H : False |- _ => destruct H
             end; first [reflexivity | discriminate Heq].
    + destruct (Hcases l1) as [[_ Hkn]|[Hout _]]; [|contradiction].
      congruence.
  - destruct (Hcases l1) as [[Hin Hkn]|[Hout Hun]]; split; tauto.
Qed.

Lemma X1_level_names_identify_levels_witness :
  PieLogLevel.WARNING = 30%Z /\ PieLogLevel.getLevelStr 25 = "UNKNOWN".
Proof.
  split.
  - apply (proj1 (X1_level_names_identify_levels PieLogLevel.WARNING 30)).
    + vm_compute. tauto.
    + vm_compute. reflexivity.
  - apply (proj2 (X1_level_names_identify_levels 25 25)). vm_compute. lia.
Defined.

(** *** Construction *)

(** What a successful [setupLogDirectory] leaves behind. *)
Lemma setupLogDirectory_effect (s : State) :
  let logDir :=
    Path.join [homedir (world s); logDirectory (this s); startTimestamp (this s)] in
  let path :=
    Path.join [logDir;
               loggerName (this s) +:+ "-" +:+ startTimestamp (this s) +:+ ".log"] in
  present (world s) logDir || negb (mkdir_fails (world s) logDir) = true ->
  exists s',
    setupLogDirectory s = Return tt s' /\
    same_config (this s) (this s') /\
    logFilePath (this s') = Some path /\
    fileWriteStream (this s') =
      Some {| ws_id := List.length (open_streams (world s)); ws_path := path |} /\
    homedir (world s') = homedir (world s) /\
    clock (world s') = clock (world s) /\
    ticks (world s') = ticks (world s) /\
    stdout (world s') = stdout (world s) /\
    mkdir_fails (world s') = mkdir_fails (world s) /\
    write_fails (world s') = write_fails (world s) /\
    stdout_broken (world s') = stdout_broken (world s) /\
    dirs (world s') =
      (if present (world s) logDir then dirs (world s)
       else {[logDir]} ∪ dirs (world s)) /\
    files (world s') = files (world s) /\
    error_events (world s') = error_events (world s) /\
    open_streams (world s') =
      (open_streams (world s)
       ++ [{| ws_id := List.length (open_streams (world s)); ws_path := path |}])%list.
Proof.
  intros logDir path Hcan. subst logDir path.
  destruct s as [t w]. cbn [this world] in *.
  set (logDir := Path.join [homedir w; _; _]) in *.
  set (path := Path.join [logDir; _]) in *.
  unfold setupLogDirectory, bind, get_this, lift, os_homedir, fs_existsSync.
  cbn [this world]. fold logDir. fold (present w logDir). fold path.
  destruct (present w logDir) eqn:Hp.
  - unfold ret. cbn [negb this world]. eexists.
    split; [reflexivity|]. unfold same_config. cbn. tauto.
  - simpl in Hcan. apply negb_true_iff in Hcan.
    unfold fs_mkdirSync. cbn [negb this world]. rewrite Hcan.
    eexists. split; [reflexivity|]. unfold same_config. cbn. tauto.
Qed.

(** X2: the instance a constructor call leaves behind, whether the call
    returned or threw, carries every configured option as given and the
    documented default for every option left out; setting up the log
    directory changes none of them. *)
Theorem X2_constructor_options_and_defaults (o : Options) (w : World) :
  let t := this (final (PieLogger.new o w)) in
  loggerName t = opt_loggerName o /\
  timezone t = default "UTC" (opt_timezone o) /\
  timestampPadding t = default 30%Z (opt_timestampPadding o) /\
  logLevelPadding t = default 10%Z (opt_logLevelPadding o) /\
  filePathPadding t = default 30%Z (opt_filePathPadding o) /\
  colorful t = default true (opt_colorful o) /\
  minimumLogLevel t = default 20%Z (opt_minimumLogLevel o) /\
  logToFile t = default true (opt_logToFile o) /\
  logDirectory t = default "logs" (opt_logDirectory o) /\
  logFileSizeLimit t = default 33554432%Z (opt_logFileSizeLimit o) /\
  maxBackupFiles t = default 2%Z (opt_maxBackupFiles o).
Proof.
  cbv zeta. unfold PieLogger.new, read_clock.
  destruct (default true (opt_logToFile o)) eqn:Hfile; [|cbn; tauto].
  match goal with
  | |- context [setupLogDirectory ?s0] => set (s := s0)
  end.
  destruct (present (world s)
              (Path.join [homedir (world s); logDirectory (this s);
                          startTimestamp (this s)])) eqn:Hp.
  - destruct (setupLogDirectory_effect s) as (s' & Hrun & Hcfg & _).
    { by rewrite Hp. }
    rewrite Hrun. cbn [final]. unfold same_config in Hcfg.
    destruct Hcfg as (-> & -> & -> & -> & -> & -> & -> & -> & -> & -> & -> & _).
    subst s. cbn. tauto.
  - destruct (mkdir_fails (world s)
                (Path.join [homedir (world s); logDirectory (this s);
                            startTimestamp (this s)])) eqn:Hm.
    + rewrite (setupLogDirectory_throws s Hp Hm). subst s. cbn. tauto.
    + destruct (setupLogDirectory_effect s) as (s' & Hrun & Hcfg & _).
      { by rewrite Hp, Hm. }
      rewrite Hrun. cbn [final]. unfold same_config in Hcfg.
      destruct Hcfg as (-> & -> & -> & -> & -> & -> & -> & -> & -> & -> & -> & _).
      subst s. cbn. tauto.
Qed.

Lemma setupLogDirectory_cases (s : State) :
  let logDir :=
    Path.join [homedir (world s); logDirectory (this s); startTimestamp (this s)] in
  (present (world s) logDir || negb (mkdir_fails (world s) logDir) = true) \/
  setupLogDirectory s = Throw (IOError "mkdir" logDir) s.
Proof.
  intros logDir.
  destruct (present (world s) logDir) eqn:Hp; [by left|].
  destruct (mkdir_fails (world s) logDir) eqn:Hm; [|by left].
  right. by apply setupLogDirectory_throws.
Qed.

Lemma new_effect (o : Options) (w : World) :
  default true (opt_logToFile o) = true ->
  present w (session_dir o w) || negb (mkdir_fails w (session_dir o w)) = true ->
  exists s,
    PieLogger.new o w = Return tt s /\
    logToFile (this s) = true /\
    minimumLogLevel (this s) = default 20%Z (opt_minimumLogLevel o) /\
    logFilePath (this s) = Some (session_file o w) /\
    fileWriteStream (this s) =
      Some {| ws_id := List.length (open_streams w);
              ws_path := session_file o w |} /\
    ticks (world s) = S (ticks w) /\
    stdout (world s) = stdout w /\
    write_fails (world s) = write_fails w /\
    dirs (world s) =
      (if present w (session_dir o w) then dirs w
       else {[session_dir o w]} ∪ dirs w) /\
    files (world s) = files w /\
    error_events (world s) = error_events w.
Proof.
  intros Hon Hcan. unfold PieLogger.new, read_clock. rewrite Hon.
  match goal with
  | |- context [setupLogDirectory ?s0] =>
      destruct (setupLogDirectory_effect s0 Hcan)
        as (s & Hrun & Hcfg & Hpath & Hstream & _ & _ & Hticks & Hout & _ & Hw
            & _ & Hdirs & Hfiles & Hevents & _)
  end.
  destruct Hcfg as (_ & _ & _ & _ & _ & _ & Hmin & Hfile & _).
  exists s. split; [exact Hrun|]. repeat split; assumption.
Qed.

(** X3: a logger constructed with [logToFile: false] is constructed on
    every host, also one on which every file operation fails: the call
    returns, no path and no stream are set, and the file system and the
    console are as they were; the clock was read once. *)
Theorem X3_console_only_construction (o : Options) (w : World) :
  opt_logToFile o = Some false ->
  exists s,
    PieLogger.new o w = Return tt s /\
    logFilePath (this s) = None /\
    fileWriteStream (this s) = None /\
    dirs (world s) = dirs w /\
    files (world s) = files w /\
    stdout (world s) = stdout w /\
    ticks (world s) = S (ticks w).
Proof.
  intros Hoff. unfold PieLogger.new, read_clock. rewrite Hoff.
  eexists. split; [reflexivity|]. cbn. tauto.
Qed.

Lemma X3_console_only_construction_witness :
  exists s,
    PieLogger.new (Host.console_only "app") Host.hostile = Return tt s /\
    fileWriteStream (this s) = None /\
    files (world s) = files Host.hostile.
Proof.
  destruct (X3_console_only_construction (Host.console_only "app") Host.hostile)
    as (s & Hrun & _ & Hstream & _ & Hfiles & _).
  - reflexivity.
  - exists s. auto.
Defined.

(** X4: when the session directory exists already, [mkdirSync] is not
    called: construction with file logging on completes even on a host
    that refuses to create directories, and the set of directories is as
    it was. *)
Theorem X4_existing_directory_is_reused (o : Options) (w : World) :
  default true (opt_logToFile o) = true ->
  present w (session_dir o w) = true ->
  exists s,
    PieLogger.new o w = Return tt s /\
    dirs (world s) = dirs w /\
    fileWriteStream (this s) =
      Some {| ws_id := List.length (open_streams w);
              ws_path := session_file o w |}.
Proof.
  intros Hon Hp.
  destruct (new_effect o w Hon)
    as (s & Hrun & _ & _ & _ & Hstream & _ & _ & _ & Hdirs & _).
  { by rewrite Hp. }
  exists s. rewrite Hp in Hdirs. auto.
Qed.

Lemma X4_existing_directory_is_reused_witness :
  mkdir_fails Host.resumed (session_dir (Host.defaults "app") Host.resumed) = true /\
  exists s,
    PieLogger.new (Host.defaults "app") Host.resumed = Return tt s /\
    dirs (world s) = dirs Host.resumed.
Proof.
  split; [reflexivity|].
  destruct (X4_existing_directory_is_reused (Host.defaults "app") Host.resumed)
    as (s & Hrun & Hdirs & _).
  - vm_compute. reflexivity.
  - vm_compute. reflexivity.
  - exists s. auto.
Defined.

Section Reopening.
Context `{Vendor}.

(** A record that passes the filter reaches a working file stream
    whatever the console does. *)
Lemma log_file_line (s : State) level message details stream :
  (minimumLogLevel (this s) <= level)%Z ->
  logToFile (this s) = true ->
  fileWriteStream (this s) = Some stream ->
  write_fails (world s) (ws_path stream) = false ->
  contents (world (final (log level message details s))) (ws_path stream) =
    contents (world s) (ws_path stream) +:+
      fullLog (this s) level (stamp (world s)) message details +:+ LF.
Proof.
  intros Hge Hfile Hstream Hw.
  rewrite log_passes by exact Hge. cbv zeta.
  destruct (stdout_broken (world s)) eqn:Hout.
  - rewrite consoleLog_lost by exact Hout.
    cbn [in_world this]. rewrite Hfile.
    erewrite fileLog_written by (cbn [in_world this world]; eauto).
    cbn [final in_world world].
    by rewrite contents_appended, contents_ticked.
  - rewrite consoleLog_printed by exact Hout.
    cbn [in_world this]. rewrite Hfile.
    erewrite fileLog_written by (cbn [in_world this world]; eauto).
    cbn [final in_world world].
    by rewrite contents_appended, contents_printed, contents_ticked.
Qed.

(** X5: the constructor itself touches no file, and the log file is
    written in append mode.  When a construction with file logging on
    returns, every file is as it was (the log file is neither created nor
    emptied by the call), nothing was printed and no ['error'] event was
    added; and
    the first record that then reaches the log file, on a host where
    writes to it work, is put after what the file held before the
    construction. *)
Theorem X5_construction_keeps_file_contents
    (o : Options) (w : World) (level : Z) message details :
  default true (opt_logToFile o) = true ->
  present w (session_dir o w) || negb (mkdir_fails w (session_dir o w)) = true ->
  exists s,
    PieLogger.new o w = Return tt s /\
    files (world s) = files w /\
    stdout (world s) = stdout w /\
    error_events (world s) = error_events w /\
    ((minimumLogLevel (this s) <= level)%Z ->
     write_fails w (session_file o w) = false ->
     contents (world (final (log level message details s))) (session_file o w) =
       contents w (session_file o w) +:+
         fullLog (this s) level (stamp (world s)) message details +:+ LF).
Proof.
  intros Hon Hcan.
  destruct (new_effect o w Hon Hcan)
    as (s & Hrun & Hfile & _ & _ & Hstream & _ & Hout & Hw & _ & Hfiles & Hev).
  exists s. split; [exact Hrun|]. split; [exact Hfiles|].
  split; [exact Hout|]. split; [exact Hev|].
  intros Hge Hok.
  etransitivity.
  - apply (log_file_line s level message details _ Hge Hfile Hstream).
    cbn [ws_path]. by rewrite Hw.
  - cbn [ws_path]. unfold contents at 1. by rewrite Hfiles.
Qed.

(** X6: every call of [setupLogDirectory] opens another stream.  Called
    again on a logger that was constructed with file logging on, it
    returns with the same log file path, the same directories and the same
    files, but [fileWriteStream] is now a second stream object on the same
    path; the first one was not closed and is still among the open
    streams. *)
Theorem X6_setup_again_opens_a_second_stream
    (o : Options) (w : World) (s : State) :
  default true (opt_logToFile o) = true ->
  PieLogger.new o w = Return tt s ->
  exists s' first second,
    setupLogDirectory s = Return tt s' /\
    fileWriteStream (this s) = Some first /\
    fileWriteStream (this s') = Some second /\
    ws_path second = ws_path first /\
    ws_id second <> ws_id first /\
    logFilePath (this s') = logFilePath (this s) /\
    dirs (world s') = dirs (world s) /\
    files (world s') = files (world s) /\
    open_streams (world s') = (open_streams (world s) ++ [second])%list /\
    In first (open_streams (world s')).
Proof.
  intros Hon Hnew. unfold PieLogger.new, read_clock in Hnew. rewrite Hon in Hnew.
  match type of Hnew with
  | setupLogDirectory ?s0 = _ => set (s0' := s0) in *
  end.
  destruct (setupLogDirectory_cases s0') as [Hcan|Hthrow];
    [|rewrite Hthrow in Hnew; discriminate].
  destruct (setupLogDirectory_effect s0' Hcan)
    as (s1 & Hrun1 & Hcfg & Hpath & Hstream & Hhome & _ & _ & _ & Hmk & _ & _
        & Hdirs & Hfiles & _ & Hopen).
  rewrite Hnew in Hrun1. injection Hrun1 as <-.
  pose proof Hcfg as (Hname & _ & _ & _ & _ & _ & _ & _ & Hdir & _ & _ & Hstamp).
  set (logDir := Path.join [homedir (world s0'); logDirectory (this s0');
                            startTimestamp (this s0')]) in *.
  set (path := Path.join [logDir; _]) in *.
  assert (Hpresent : present (world s) logDir = true).
  { unfold present. rewrite Hdirs, Hfiles.
    destruct (present (world s0') logDir) eqn:Hp; [exact Hp|].
    apply orb_true_iff. left. apply bool_decide_eq_true.
    apply elem_of_union. left. by apply elem_of_singleton. }
  destruct (setupLogDirectory_effect s)
    as (s2 & Hrun2 & _ & Hpath2 & Hstream2 & _ & _ & _ & _ & _ & _ & _
        & Hdirs2 & Hfiles2 & _ & Hopen2).
  { rewrite Hhome, Hdir, Hstamp. fold logDir. by rewrite Hpresent. }
  rewrite Hhome, Hdir, Hstamp, Hname in *.
  fold logDir in Hdirs2, Hpath2, Hstream2, Hopen2.
  fold path in Hpath2, Hstream2, Hopen2. rewrite Hpresent in Hdirs2.
  exists s2, {| ws_id := List.length (open_streams (world s0')); ws_path := path |},
    {| ws_id := List.length (open_streams (world s)); ws_path := path |}.
  split; [exact Hrun2|]. split; [exact Hstream|]. split; [exact Hstream2|].
  split; [reflexivity|]. split.
  { cbn [ws_id]. rewrite Hopen, length_app. simpl. lia. }
  split; [by rewrite Hpath2, Hpath|]. split; [exact Hdirs2|].
  split; [exact Hfiles2|]. split; [exact Hopen2|].
  rewrite Hopen2, Hopen. apply in_or_app. left. apply in_or_app. right.
  by left.
Qed.

End Reopening.

Lemma X5_construction_keeps_file_contents_witness :
  exists s,
    PieLogger.new (Host.defaults "app") Host.resumed = Return tt s /\
    files (world s) = files Host.resumed /\
    contents
      (world (final (log (H := Host.ansi) PieLogLevel.INFO "hello" JsNull s)))
      Host.app_log
    = "earlier line" +:+ LF +:+
      "2024-01-02 03:04:05.010        INFO       [app]                         : hello"
      +:+ LF.
Proof.
  destruct (X5_construction_keeps_file_contents (H := Host.ansi)
              (Host.defaults "app") Host.resumed PieLogLevel.INFO "hello" JsNull)
    as (s & Hrun & Hfiles & _ & _ & Hline).
  - vm_compute. reflexivity.
  - vm_compute. reflexivity.
  - exists s. split; [exact Hrun|]. split; [exact Hfiles|].
    assert (Hs : s = Host.session (Host.defaults "app") Host.resumed).
    { unfold Host.session. by rewrite Hrun. }
    etransitivity.
    + apply Hline.
      * rewrite Hs. vm_compute. discriminate.
      * vm_compute. reflexivity.
    + rewrite Hs. vm_compute. reflexivity.
Defined.

Lemma X6_setup_again_opens_a_second_stream_witness :
  exists s' first second,
    setupLogDirectory (Host.session (Host.defaults "app") Host.healthy)
      = Return tt s' /\
    fileWriteStream (this (Host.session (Host.defaults "app") Host.healthy))
      = Some first /\
    fileWriteStream (this s') = Some second /\
    ws_id second <> ws_id first /\
    In first (open_streams (world s')).
Proof.
  destruct (X6_setup_again_opens_a_second_stream
              (Host.defaults "app") Host.healthy
              (Host.session (Host.defaults "app") Host.healthy))
    as (s' & first & second & Hrun & Hfirst & Hsecond & _ & Hid & _ & _ & _ & _
        & Hin).
  - vm_compute. reflexivity.
  - vm_compute. reflexivity.
  - exists s', first, second. auto.
Defined.

(** *** Timestamps *)

(** X7: [getTimestamp] on an ISO instant.  When the clock's string is a
    date without the letter T, then T, a time and a final Z, the result is
    the date, a space and the time, milliseconds included; the clock was
    read once and nothing else changed. *)
Theorem X7_getTimestamp_of_iso_instant (s : State) (date time : string) :
  clock (world s) (ticks (world s)) = date +:+ "T" +:+ time +:+ "Z" ->
  occurs "T" date = false ->
  getTimestamp s = Return (date +:+ " " +:+ time) (in_world s (ticked (world s))).
Proof.
  intros Hclock Hdate.
  unfold getTimestamp, bind, lift, Date_toISOString, read_clock, ret.
  rewrite Hclock.
  change (date +:+ "T" +:+ time +:+ "Z")
    with (date +:+ String "T" (time +:+ "Z")).
  rewrite (replace_first_T_date date _ Hdate).
  change (date +:+ " " +:+ time) with (date +:+ String " " time).
  replace (date +:+ String " " (time +:+ "Z"))
    with ((date +:+ String " " time) +:+ String "Z" "")
    by (rewrite append_assoc, append_cons; reflexivity).
  rewrite slice_0_m1_last. reflexivity.
Qed.

Lemma X7_getTimestamp_of_iso_instant_witness :
  getTimestamp (Host.session (Host.defaults "app") Host.healthy)
    = Return "2024-01-02 03:04:05.010"
        (in_world (Host.session (Host.defaults "app") Host.healthy)
           (ticked (world (Host.session (Host.defaults "app") Host.healthy)))).
Proof.
  apply (X7_getTimestamp_of_iso_instant
           (Host.session (Host.defaults "app") Host.healthy)
           "2024-01-02" "03:04:05.010").
  - vm_compute. reflexivity.
  - vm_compute. reflexivity.
Defined.

Lemma new_startTimestamp (o : Options) (w : World) :
  startTimestamp (this (final (PieLogger.new o w))) = session_stamp w.
Proof.
  unfold PieLogger.new, read_clock.
  destruct (default true (opt_logToFile o)); [|reflexivity].
  match goal with
  | |- context [setupLogDirectory ?s0] => set (s := s0)
  end.
  destruct (setupLogDirectory_cases s) as [Hcan|Hthrow].
  - destruct (setupLogDirectory_effect s Hcan) as (s' & Hrun & Hcfg & _).
    rewrite Hrun. cbn [final]. unfold same_config in Hcfg.
    destruct Hcfg as (_ & _ & _ & _ & _ & _ & _ & _ & _ & _ & _ & ->).
    reflexivity.
  - rewrite Hthrow. reflexivity.
Qed.

(** X8: the session timestamp of every constructed logger contains no
    colon and is as long as the clock's ISO string; a clock string without
    colons is taken as it is. *)
Theorem X8_session_timestamp_has_no_colon (o : Options) (w : World) :
  let ts := startTimestamp (this (final (PieLogger.new o w))) in
  occurs ":" ts = false /\
  String.length ts = String.length (clock w (ticks w)) /\
  (occurs ":" (clock w (ticks w)) = false -> ts = clock w (ticks w)).
Proof.
  cbv zeta. rewrite new_startTimestamp. unfold session_stamp.
  split; [apply occurs_replace_colons|].
  split; [apply length_replace_colons|apply replace_colons_none].
Qed.

Lemma X8_session_timestamp_has_no_colon_witness :
  occurs ":"
    (startTimestamp (this (final (PieLogger.new (Host.defaults "app") Host.healthy))))
  = false /\
  startTimestamp (this (final (PieLogger.new (Host.defaults "app") Host.compact)))
  = "20240102T030405.000Z".
Proof.
  split.
  - apply (X8_session_timestamp_has_no_colon (Host.defaults "app") Host.healthy).
  - apply (X8_session_timestamp_has_no_colon (Host.defaults "app") Host.compact).
    vm_compute. reflexivity.
Defined.

(** *** The formatted text *)

Section Format.
Context `{Vendor}.

Lemma length_getLevelStr (level : Z) :
  (String.length (PieLogLevel.getLevelStr level) <= 8)%nat.
Proof.
  unfold PieLogLevel.getLevelStr.
  repeat match goal with
         | |- context [(level =? ?k)%Z] => destruct (level =? k)%Z
         end; simpl; lia.
Qed.

(** X9: column alignment.  For a record without details, when the
    timestamp fits [timestampPadding], [logLevelPadding] is at least 8 (the
    longest level name) and the bracketed logger name fits
    [filePathPadding], the text is a header followed by the message, and
    the header is [timestampPadding + logLevelPadding + filePathPadding + 4]
    code units long whatever the level and the message. *)
Theorem X9_message_starts_at_fixed_column
    (t : Instance) (level : Z) (now message : string) (details : JsValue) :
  truthy details = false ->
  (Z.of_nat (String.length now) <= timestampPadding t)%Z ->
  (8 <= logLevelPadding t)%Z ->
  (Z.of_nat (String.length (loggerName t)) + 2 <= filePathPadding t)%Z ->
  exists header,
    fullLog t level now message details = header +:+ message /\
    Z.of_nat (String.length header) =
      (timestampPadding t + logLevelPadding t + filePathPadding t + 4)%Z.
Proof.
  intros Hfalsy Hnow Hlevel Hname.
  exists (padEnd now (timestampPadding t) +:+ " " +:+
          padEnd (PieLogLevel.getLevelStr level) (logLevelPadding t) +:+ " " +:+
          padEnd ("[" +:+ loggerName t +:+ "]") (filePathPadding t) +:+ ": ").
  split.
  - unfold fullLog. rewrite Hfalsy. by rewrite !append_assoc.
  - pose proof (length_getLevelStr level) as Hl.
    rewrite !length_append. rewrite !Nat2Z.inj_add, !length_padEnd.
    rewrite !length_append. simpl String.length.
    generalize dependent (String.length (PieLogLevel.getLevelStr level)).
    generalize dependent (String.length (loggerName t)).
    generalize dependent (String.length now). intros. lia.
Qed.

(** X10: falsy details.  [log] treats every falsy [details] value
    ([undefined], [false], [0], the empty string) as it treats [null]: the
    call is the same call without details.  A truthy value is appended to
    the text after a line feed, as [util.inspect] renders it. *)
Theorem X10_falsy_details_are_dropped
    (s : State) (level : Z) (now message : string) (details : JsValue) :
  (truthy details = false ->
   log level message details s = log level message JsNull s) /\
  (truthy details = true ->
   fullLog (this s) level now message details =
     fullLog (this s) level now message JsNull +:+ LF +:+ util_inspect details).
Proof.
  split.
  - intros Hfalsy.
    assert (Htext : forall t stamp,
               fullLog t level stamp message details
               = fullLog t level stamp message JsNull).
    { intros t stamp. unfold fullLog. by rewrite Hfalsy. }
    unfold log, bind, get_this.
    destruct (level <? minimumLogLevel (this s))%Z; [reflexivity|].
    destruct (getTimestamp s) as [stamp s1|e s1]; [|reflexivity].
    by rewrite Htext.
  - intros Htruthy. unfold fullLog. rewrite Htruthy. reflexivity.
Qed.

End Format.

Lemma X9_message_starts_at_fixed_column_witness :
  exists header,
    fullLog (H := Host.ansi)
      (this (Host.session (Host.defaults "app") Host.healthy))
      PieLogLevel.CRITICAL "2024-01-02 03:04:05.010" "disk full" JsNull
    = header +:+ "disk full" /\
    Z.of_nat (String.length header) = 74%Z.
Proof.
  apply (X9_message_starts_at_fixed_column (H := Host.ansi)
           (this (Host.session (Host.defaults "app") Host.healthy))
           PieLogLevel.CRITICAL "2024-01-02 03:04:05.010" "disk full" JsNull).
  - reflexivity.
  - vm_compute. discriminate.
  - vm_compute. discriminate.
  - vm_compute. discriminate.
Defined.

Lemma X10_falsy_details_are_dropped_witness :
  log (H := Host.ansi) PieLogLevel.INFO "hello" (JsNumber 0)
      (Host.session (Host.defaults "app") Host.healthy)
  = log (H := Host.ansi) PieLogLevel.INFO "hello" JsNull
      (Host.session (Host.defaults "app") Host.healthy) /\
  fullLog (H := Host.ansi)
    (this (Host.session (Host.small 2) Host.healthy))
    PieLogLevel.INFO "now" "hello" (JsStr "x")
  = "now INFO [a]: hello" +:+ LF +:+ "'x'".
Proof.
  split.
  - apply (proj1 (X10_falsy_details_are_dropped (H := Host.ansi)
                    (Host.session (Host.defaults "app") Host.healthy)
                    PieLogLevel.INFO "" "hello" (JsNumber 0))).
    reflexivity.
  - etransitivity.
    + apply (proj2 (X10_falsy_details_are_dropped (H := Host.ansi)
                      (Host.session (Host.small 2) Host.healthy)
                      PieLogLevel.INFO "now" "hello" (JsStr "x"))).
      reflexivity.
    + vm_compute. reflexivity.
Defined.

(** *** Runs of emissions *)

Lemma extends_refl (w : World) : extends w w.
Proof.
  unfold extends. repeat split; try reflexivity; try lia.
  - exists []. by rewrite app_nil_r.
  - auto.
  - intros path. exists "". by rewrite append_empty_r.
Qed.

Lemma extends_trans (w1 w2 w3 : World) :
  extends w1 w2 -> extends w2 w3 -> extends w1 w3.
Proof.
  intros (Hh & Hc & Hd & Hm & Hw & Hb & Ht & [o1 Ho] & Hk & Hf)
         (Hh' & Hc' & Hd' & Hm' & Hw' & Hb' & Ht' & [o2 Ho'] & Hk' & Hf').
  unfold extends. repeat split; try congruence; try lia.
  - exists (o1 ++ o2)%list. rewrite Ho', Ho. by rewrite <- app_assoc.
  - auto.
  - intros path. destruct (Hf path) as [m1 H1], (Hf' path) as [m2 H2].
    exists (m1 +:+ m2). rewrite H2, H1. apply append_assoc.
Qed.

Lemma extends_ticked (w : World) : extends w (ticked w).
Proof.
  unfold extends, ticked. simpl. repeat split; try reflexivity; try lia.
  - exists []. by rewrite app_nil_r.
  - auto.
  - intros path. exists "". unfold contents. simpl. by rewrite append_empty_r.
Qed.

Lemma extends_printed (text : string) (w : World) : extends w (printed text w).
Proof.
  unfold extends, printed. simpl. repeat split; try reflexivity; try lia.
  - by exists [text].
  - auto.
  - intros path. exists "". unfold contents. simpl. by rewrite append_empty_r.
Qed.

Lemma extends_unwritten (path : string) (w : World) : extends w (unwritten path w).
Proof.
  unfold extends, unwritten. simpl. repeat split; try reflexivity; try lia.
  - exists []. by rewrite app_nil_r.
  - auto.
  - intros other. exists "". unfold contents. simpl. by rewrite append_empty_r.
Qed.

Lemma extends_appended (path data : string) (w : World) :
  extends w (appended path data w).
Proof.
  unfold extends. repeat split; try reflexivity.
  - exists []. unfold appended. simpl. by rewrite app_nil_r.
  - intros other Hsome. unfold appended. simpl.
    destruct (decide (path = other)) as [->|Hne].
    + rewrite lookup_insert_eq. eauto.
    + by rewrite lookup_insert_ne.
  - intros other. destruct (decide (other = path)) as [->|Hne].
    + exists data. apply contents_appended.
    + exists "". unfold contents. rewrite files_appended_other by exact Hne.
      by rewrite append_empty_r.
Qed.

Section Runs.
Context `{Vendor}.

(** One [log] call, whatever the host does. *)
Lemma log_extends (s : State) level message details :
  extends (world s) (world (final (log level message details s))) /\
  (forall path,
     (forall stream, fileWriteStream (this s) = Some stream ->
                     ws_path stream <> path) ->
     files (world (final (log level message details s))) !! path
     = files (world s) !! path) /\
  (logToFile (this s) = false ->
   files (world (final (log level message details s))) = files (world s)).
Proof.
  destruct (Z.lt_ge_cases level (minimumLogLevel (this s))) as [Hlt|Hge].
  { rewrite log_below by exact Hlt. split; [apply extends_refl|]. auto. }
  rewrite log_passes by exact Hge. cbv zeta.
  set (text := fullLog (this s) level (stamp (world s)) message details).
  assert (Hconsole : exists w1,
             consoleLog level text (in_world s (ticked (world s)))
             = Return tt (in_world s w1) /\
             extends (world s) w1 /\
             files w1 = files (world s) /\
             write_fails w1 = write_fails (world s)).
  { destruct (stdout_broken (world s)) eqn:Hout.
    - exists (ticked (world s)).
      rewrite consoleLog_lost by exact Hout.
      split; [reflexivity|]. split; [apply extends_ticked|]. by split.
    - exists (printed (colorize (this s) level text) (ticked (world s))).
      rewrite consoleLog_printed by exact Hout.
      split; [reflexivity|].
      split; [eapply extends_trans; [apply extends_ticked|apply extends_printed]|].
      by split. }
  destruct Hconsole as (w1 & -> & Hw1 & Hfiles1 & Hfails1).
  cbn [in_world this world].
  destruct (logToFile (this s)) eqn:Hfile;
    [|cbn [final in_world world]; split; [exact Hw1|];
      split; intros; by rewrite Hfiles1].
  destruct (fileWriteStream (this s)) as [stream|] eqn:Hstream.
  - destruct (write_fails (world s) (ws_path stream)) eqn:Hw.
    + erewrite fileLog_lost
        by (cbn [in_world this world]; first [eassumption | by rewrite Hfails1]).
      cbn [final in_world world].
      split; [eapply extends_trans; [exact Hw1|apply extends_unwritten]|].
      split; [|discriminate]. intros path _.
      unfold unwritten. simpl. by rewrite Hfiles1.
    + erewrite fileLog_written
        by (cbn [in_world this world]; first [eassumption | by rewrite Hfails1]).
      cbn [final in_world world].
      split; [eapply extends_trans; [exact Hw1|apply extends_appended]|].
      split; [|discriminate].
      intros path Hne. rewrite files_appended_other, Hfiles1; [reflexivity|].
      intros ->. by apply (Hne stream).
  - rewrite fileLog_no_stream by exact Hstream.
    cbn [final in_world world].
    split; [exact Hw1|]. split; [intros; by rewrite Hfiles1|discriminate].
Qed.

(** X11: logging only ever appends.  After any run of emission calls, on
    any host, the host is the same, no directory was created or removed,
    the console and every file hold what they held before with at most
    more after it, no file is gone, and no file other than the one the
    stream was opened on has changed. *)
Theorem X11_logging_only_appends (es : list Emission) (s : State) :
  extends (world s) (world (final (emit_all es s))) /\
  (forall path,
     (forall stream, fileWriteStream (this s) = Some stream ->
                     ws_path stream <> path) ->
     files (world (final (emit_all es s))) !! path
     = files (world s) !! path).
Proof.
  revert s. induction es as [|e es IH]; intros s.
  { split; [apply extends_refl|reflexivity]. }
  simpl emit_all. unfold bind, emit.
  pose proof (log_extends s (em_level e) (em_message e) (em_details e))
    as (Hext & Hother & _).
  pose proof (log_this s (em_level e) (em_message e) (em_details e)) as Hthis.
  destruct (log _ _ _ s) as [[] s1|err s1]; cbn [final] in *.
  - destruct (IH s1) as [Hext1 Hother1]. split.
    + eapply extends_trans; eauto.
    + intros path Hne. rewrite Hother1 by (by rewrite Hthis). by apply Hother.
  - split; assumption.
Qed.

(** X13: with [logToFile] off no emission touches a file, even when a
    stream is open, and the run returns whatever the disk does. *)
Theorem X13_file_logging_off (es : list Emission) (s : State) :
  logToFile (this s) = false ->
  files (world (final (emit_all es s))) = files (world s) /\
  (stdout_broken (world s) = false -> returned (emit_all es s) = true).
Proof.
  intros Hoff. split; [|intros _; apply emit_all_returns].
  revert s Hoff. induction es as [|e es IH]; intros s Hoff; [reflexivity|].
  simpl emit_all. unfold bind, emit.
  pose proof (log_extends s (em_level e) (em_message e) (em_details e))
    as (_ & _ & Hfiles).
  pose proof (log_this s (em_level e) (em_message e) (em_details e)) as Hthis.
  destruct (log _ _ _ s) as [[] s1|err s1]; cbn [final] in *.
  - rewrite IH by (by rewrite Hthis). by apply Hfiles.
  - by apply Hfiles.
Qed.

End Runs.

Lemma X11_logging_only_appends_witness :
  files (world (final (emit_all (H := Host.ansi) Host.three_emissions
                         (Host.session (Host.defaults "app") Host.resumed))))
    !! "/home/u/notes.txt"
  = Some "keep".
Proof.
  etransitivity.
  - apply (X11_logging_only_appends (H := Host.ansi) Host.three_emissions
             (Host.session (Host.defaults "app") Host.resumed)).
    intros stream Hstream. vm_compute in Hstream. injection Hstream as <-.
    vm_compute. discriminate.
  - vm_compute. reflexivity.
Defined.

Lemma X13_file_logging_off_witness :
  files (world (final (emit_all (H := Host.ansi) Host.three_emissions
                         (Host.session (Host.console_only "app") Host.hostile))))
  = files Host.hostile /\
  returned (emit_all (H := Host.ansi) Host.three_emissions
              (Host.session (Host.console_only "app") Host.healthy)) = true.
Proof.
  split.
  - apply (X13_file_logging_off (H := Host.ansi) Host.three_emissions
             (Host.session (Host.console_only "app") Host.hostile)).
    vm_compute. reflexivity.
  - apply (X13_file_logging_off (H := Host.ansi) Host.three_emissions
             (Host.session (Host.console_only "app") Host.healthy)).
    + vm_compute. reflexivity.
    + vm_compute. reflexivity.
Defined.

Section Filtered.
Context `{Vendor}.

(** X12: in a run that mixes records below and above the minimum, on a
    host where both sinks work, exactly the records that pass the filter
    are written: the log file grows by their texts in call order, the
    console by as many entries, and the clock is read once per such record
    and never for a filtered one. *)
Theorem X12_only_passing_records_are_written
    (es : list Emission) (s : State) (stream : WriteStream) :
  logToFile (this s) = true ->
  fileWriteStream (this s) = Some stream ->
  stdout_broken (world s) = false ->
  write_fails (world s) (ws_path stream) = false ->
  exists s',
    emit_all es s = Return tt s' /\
    contents (world s') (ws_path stream) =
      contents (world s) (ws_path stream) +:+
        as_lines (passing (this s) (clock (world s)) (ticks (world s)) es) /\
    ticks (world s') =
      (ticks (world s)
       + List.length (passing (this s) (clock (world s)) (ticks (world s)) es))%nat /\
    List.length (stdout (world s')) =
      (List.length (stdout (world s))
       + List.length (passing (this s) (clock (world s)) (ticks (world s)) es))%nat.
Proof.
  revert s. induction es as [|e es IH]; intros s Hfile Hstream Hok Hw.
  { exists s. simpl. rewrite append_empty_r. repeat split; try reflexivity; lia. }
  simpl emit_all. unfold bind, emit. simpl passing.
  destruct (Z.ltb_spec (em_level e) (minimumLogLevel (this s))) as [Hlt|Hge].
  - rewrite log_below by exact Hlt. by apply IH.
  - rewrite (log_both_sinks s _ _ _ stream) by assumption. cbv zeta.
    set (text := fullLog (this s) (em_level e) (stamp (world s))
                   (em_message e) (em_details e)).
    set (s1 := in_world s _).
    destruct (IH s1) as (s' & Hrun & Hcont & Hticks & Hout); try assumption.
    exists s'. split; [exact Hrun|].
    subst s1. cbn [in_world world this] in *.
    rewrite contents_appended, contents_printed, contents_ticked in Hcont.
    fold (stamp (world s)). fold text.
    split; [|split].
    + rewrite Hcont. simpl as_lines. by rewrite !append_assoc.
    + rewrite Hticks. simpl. lia.
    + rewrite Hout. simpl. rewrite length_app. simpl. lia.
Qed.

(** X14: the five convenience methods.  On a working console each of
    [debug], [info], [warning], [error] and [critical] prints exactly one
    entry when its level (10, 20, 30, 40, 50) is at or above the logger's
    minimum and nothing when it is below; a filtered call leaves the whole
    state as it was. *)
Theorem X14_convenience_methods (s : State) (message : string) (details : JsValue) :
  stdout_broken (world s) = false ->
  let printed_by (call : M State unit) :=
    (List.length (stdout (world (final (call s))))
     - List.length (stdout (world s)))%nat in
  let expected (level : Z) :=
    if (level <? minimumLogLevel (this s))%Z then 0%nat else 1%nat in
  printed_by (debug message details) = expected 10%Z /\
  printed_by (info message details) = expected 20%Z /\
  printed_by (warning message details) = expected 30%Z /\
  printed_by (error message details) = expected 40%Z /\
  printed_by (critical message details) = expected 50%Z /\
  ((50 < minimumLogLevel (this s))%Z ->
   debug message details s = Return tt s /\
   info message details s = Return tt s /\
   warning message details s = Return tt s /\
   error message details s = Return tt s /\
   critical message details s = Return tt s).
Proof.
  intros Hok printed_by expected.
  assert (Hone : forall level,
             (List.length (stdout (world (final (log level message details s))))
              - List.length (stdout (world s)))%nat = expected level).
  { intros level. subst expected. cbv beta.
    destruct (Z.ltb_spec level (minimumLogLevel (this s))) as [Hlt|Hge].
    - rewrite log_below by exact Hlt. simpl. lia.
    - rewrite log_console_line by assumption.
      rewrite length_app. simpl. lia. }
  subst printed_by. cbv beta. unfold debug, info, warning, error, critical.
  repeat (split; [apply Hone|]).
  intros Hhigh. unfold PieLogLevel.DEBUG, PieLogLevel.INFO, PieLogLevel.WARNING,
    PieLogLevel.ERROR, PieLogLevel.CRITICAL.
  repeat split; apply log_below; lia.
Qed.

End Filtered.

Lemma X12_only_passing_records_are_written_witness :
  exists s',
    emit_all (H := Host.ansi) Host.mixed_emissions
      (Host.session (Host.small 2) Host.healthy) = Return tt s' /\
    contents (world s') Host.small_log =
      "2024-01-02 03:04:05.010 INFO [a]: hello" +:+ LF +:+
      "2024-01-02 03:04:05.020 ERROR [a]: world" +:+ LF /\
    ticks (world s') = 3%nat.
Proof.
  destruct (X12_only_passing_records_are_written (H := Host.ansi)
              Host.mixed_emissions
              (Host.session (Host.small 2) Host.healthy)
              {| ws_id := 0; ws_path := Host.small_log |})
    as (s' & Hrun & Hcont & Hticks & _).
  - vm_compute. reflexivity.
  - vm_compute. reflexivity.
  - vm_compute. reflexivity.
  - vm_compute. reflexivity.
  - exists s'. split; [exact Hrun|]. split.
    + etransitivity; [exact Hcont|]. vm_compute. reflexivity.
    + etransitivity; [exact Hticks|]. vm_compute. reflexivity.
Defined.

Lemma X14_convenience_methods_witness :
  (List.length
     (stdout (world (final (debug (H := Host.ansi) "hello" JsNull
                              (Host.session (Host.defaults "app") Host.healthy)))))
   - List.length (stdout (world (Host.session (Host.defaults "app") Host.healthy))))%nat
  = 0%nat /\
  (List.length
     (stdout (world (final (info (H := Host.ansi) "hello" JsNull
                              (Host.session (Host.defaults "app") Host.healthy)))))
   - List.length (stdout (world (Host.session (Host.defaults "app") Host.healthy))))%nat
  = 1%nat /\
  critical (H := Host.ansi) "hello" JsNull (Host.session Host.silent Host.healthy)
  = Return tt (Host.session Host.silent Host.healthy).
Proof.
  destruct (X14_convenience_methods (H := Host.ansi)
              (Host.session (Host.defaults "app") Host.healthy) "hello" JsNull)
    as (Hdebug & Hinfo & _).
  - vm_compute. reflexivity.
  - split; [exact Hdebug|]. split; [exact Hinfo|].
    destruct (X14_convenience_methods (H := Host.ansi)
                (Host.session Host.silent Host.healthy) "hello" JsNull)
      as (_ & _ & _ & _ & _ & Hsilent).
    + vm_compute. reflexivity.
    + apply Hsilent. vm_compute. reflexivity.
Defined.

(** *** Where the log file ends up *)

Lemma ends_with_sep_app (a b : string) :
  b <> "" -> Path.ends_with_sep (a +:+ b) = Path.ends_with_sep b.
Proof.
  intros Hb. induction a as [|c a IH]; [reflexivity|].
  rewrite append_cons. rewrite PathFacts.ends_with_sep_cons; [exact IH|].
  destruct a; [exact Hb|discriminate].
Qed.

(** Joining a normalized directory with [../f] gives [f] beside the
    directory's last segment. *)
Lemma join_parent (P seg f : string) :
  P <> "" ->
  Path.normal_absolute (P +:+ String Path.sep seg) = true ->
  Path.split seg = [seg] ->
  forallb Path.plain_segment (Path.split f) = true ->
  Path.join [P +:+ String Path.sep seg; ".." +:+ String Path.sep f]
  = P +:+ String Path.sep f.
Proof.
  intros HP Hn Hseg Hf.
  destruct (PathFacts.normal_absolute_app P seg HP Hn) as [HPn Hsegp].
  rewrite Hseg in Hsegp. simpl in Hsegp. rewrite andb_true_r in Hsegp.
  pose proof (PathFacts.plain_not_empty f Hf) as Hf'.
  destruct P as [|c restP]; [congruence|]. simpl in HPn.
  apply andb_prop in HPn as [Hc HrestP]. apply Ascii.eqb_eq in Hc as ->.
  unfold Path.join.
  rewrite filter_cons_True by discriminate.
  rewrite filter_cons_True by discriminate. rewrite filter_nil.
  change (Path.unsplit [String Path.sep restP +:+ String Path.sep seg;
                        ".." +:+ String Path.sep f])
    with ((String Path.sep restP +:+ String Path.sep seg)
            +:+ String Path.sep (".." +:+ String Path.sep f)).
  set (path := (String Path.sep restP +:+ String Path.sep seg)
                 +:+ String Path.sep (".." +:+ String Path.sep f)).
  assert (Hpath : path =
            String Path.sep (restP +:+ String Path.sep
              (seg +:+ String Path.sep (".." +:+ String Path.sep f)))).
  { subst path. rewrite !append_cons, append_assoc, !append_cons. reflexivity. }
  assert (Hend : Path.ends_with_sep path = false).
  { subst path.
    replace ((String Path.sep restP +:+ String Path.sep seg)
               +:+ String Path.sep (".." +:+ String Path.sep f))
      with (((String Path.sep restP +:+ String Path.sep seg)
               +:+ String Path.sep (".." +:+ String Path.sep "")) +:+ f)
      by (rewrite !append_assoc, !append_cons, !append_assoc; reflexivity).
    rewrite ends_with_sep_app by exact Hf'.
    by apply PathFacts.plain_no_trailing_sep. }
  clearbody path. subst path.
  unfold Path.normalize. rewrite Hend.
  simpl String.eqb. cbv iota.
  change (Path.starts_with_sep (String Path.sep ?x)) with true.
  cbv zeta. simpl negb. unfold Path.normalizeString.
  rewrite PathFacts.split_sep, !PathFacts.split_app, Hseg.
  change (Path.split "..") with [".."].
  cbn [fold_left app].
  change (Path.push_segment false [] "") with (@nil string).
  rewrite fold_left_app.
  rewrite (PathFacts.fold_push_plain false (Path.split restP) [] HrestP).
  cbn [fold_left].
  rewrite (PathFacts.push_plain false _ seg Hsegp).
  assert (Hnotdots : String.eqb seg ".." = false).
  { unfold Path.plain_segment in Hsegp.
    apply andb_prop in Hsegp as [_ Hd]. by apply negb_true_iff in Hd. }
  assert (Hpop : forall acc,
             Path.push_segment false (seg :: acc) ".." = acc).
  { intros acc. unfold Path.push_segment. simpl. by rewrite Hnotdots. }
  rewrite Hpop.
  rewrite PathFacts.fold_push_plain by exact Hf.
  rewrite app_nil_r, rev_app_distr, !rev_involutive.
  rewrite <- PathFacts.split_app, PathFacts.unsplit_split.
  destruct (String.eqb_spec (restP +:+ String Path.sep f) "") as [Hempty|_].
  { destruct restP; discriminate. }
  reflexivity.
Qed.

Lemma new_returned_path (o : Options) (w : World) (s : State) :
  default true (opt_logToFile o) = true ->
  PieLogger.new o w = Return tt s ->
  logFilePath (this s) = Some (session_file o w).
Proof.
  intros Hon Hnew.
  destruct (present w (session_dir o w) || negb (mkdir_fails w (session_dir o w)))
    eqn:Hcan.
  - destruct (new_returns o w Hon Hcan) as (s' & Hrun & _ & _ & Hpath & _).
    rewrite Hnew in Hrun. by injection Hrun as <-.
  - apply orb_false_elim in Hcan as [Hp Hm]. apply negb_false_iff in Hm.
    destruct (new_throws o w Hon Hp Hm) as (s' & Hrun & _).
    rewrite Hnew in Hrun. discriminate.
Qed.

Lemma session_dir_literal (o : Options) (w : World) :
  homedir w <> "" ->
  Path.normal_absolute
    (homedir w +:+ "/" +:+ default "logs" (opt_logDirectory o) +:+ "/" +:+
     session_stamp w) = true ->
  session_dir o w =
    homedir w +:+ "/" +:+ default "logs" (opt_logDirectory o) +:+ "/" +:+
    session_stamp w.
Proof.
  intros Hhome Hn. unfold session_dir.
  by apply PathFacts.join_three_normal.
Qed.

Lemma session_file_literal (o : Options) (w : World) :
  homedir w <> "" ->
  Path.normal_absolute
    (homedir w +:+ "/" +:+ default "logs" (opt_logDirectory o) +:+ "/" +:+
     session_stamp w +:+ "/" +:+
     opt_loggerName o +:+ "-" +:+ session_stamp w +:+ ".log") = true ->
  session_file o w =
    homedir w +:+ "/" +:+ default "logs" (opt_logDirectory o) +:+ "/" +:+
    session_stamp w +:+ "/" +:+
    opt_loggerName o +:+ "-" +:+ session_stamp w +:+ ".log".
Proof.
  intros Hhome Hn.
  set (root := default "logs" (opt_logDirectory o)) in *.
  set (ts := session_stamp w) in *.
  set (file := opt_loggerName o +:+ "-" +:+ ts +:+ ".log") in *.
  assert (Hassoc :
    homedir w +:+ "/" +:+ root +:+ "/" +:+ ts +:+ "/" +:+ file
    = (homedir w +:+ String Path.sep (root +:+ String Path.sep ts))
        +:+ String Path.sep file).
  { symmetry. rewrite append_assoc, append_cons, append_assoc, append_cons.
    reflexivity. }
  rewrite Hassoc in *.
  assert (Hinner : homedir w +:+ String Path.sep (root +:+ String Path.sep ts) <> "").
  { destruct (homedir w); [congruence|discriminate]. }
  destruct (PathFacts.normal_absolute_app _ _ Hinner Hn) as [Hdir _].
  unfold session_file. fold ts file.
  rewrite (session_dir_literal o w Hhome Hdir). fold root ts.
  by apply PathFacts.join_two_normal.
Qed.

(** X15: a logger name that starts with [../] takes the log file out of
    the session directory.  When the home directory, the log directory and
    the session timestamp form a normalized path and the rest of the file
    name is made of plain segments, the log file of logger [../n] is
    [home/logDirectory/n-timestamp.log], beside the session directory and
    not inside it. *)
Theorem X15_parent_segment_in_logger_name (o : Options) (w : World) (n : string) :
  let ts := session_stamp w in
  let root := default "logs" (opt_logDirectory o) in
  opt_loggerName o = "../" +:+ n ->
  default true (opt_logToFile o) = true ->
  present w (session_dir o w) || negb (mkdir_fails w (session_dir o w)) = true ->
  homedir w <> "" ->
  Path.normal_absolute (homedir w +:+ "/" +:+ root +:+ "/" +:+ ts) = true ->
  Path.split ts = [ts] ->
  forallb Path.plain_segment (Path.split (n +:+ "-" +:+ ts +:+ ".log")) = true ->
  exists s,
    PieLogger.new o w = Return tt s /\
    logFilePath (this s) =
      Some (homedir w +:+ "/" +:+ root +:+ "/" +:+ n +:+ "-" +:+ ts +:+ ".log").
Proof.
  intros ts root Hname Hon Hcan Hhome Hdir Hts Hfile.
  destruct (new_returns o w Hon Hcan) as (s & Hrun & _ & _ & Hpath & _).
  exists s. split; [exact Hrun|]. rewrite Hpath. f_equal.
  unfold session_file. rewrite (session_dir_literal o w Hhome Hdir).
  fold ts root. rewrite Hname.
  change (("../" +:+ n) +:+ "-" +:+ ts +:+ ".log")
    with (".." +:+ String Path.sep (n +:+ "-" +:+ ts +:+ ".log")).
  replace (homedir w +:+ "/" +:+ root +:+ "/" +:+ ts)
    with ((homedir w +:+ String Path.sep root) +:+ String Path.sep ts)
    in *
    by (rewrite append_assoc, append_cons; reflexivity).
  rewrite join_parent; try assumption.
  - rewrite append_assoc, append_cons. reflexivity.
  - destruct (homedir w); [congruence|discriminate].
Qed.

Lemma X15_parent_segment_in_logger_name_witness :
  exists s,
    PieLogger.new (Host.defaults "../app") Host.healthy = Return tt s /\
    logFilePath (this s) = Some "/home/u/logs/app-2024-01-02T03-04-05.000Z.log".
Proof.
  destruct (X15_parent_segment_in_logger_name
              (Host.defaults "../app") Host.healthy "app")
    as (s & Hrun & Hpath).
  - reflexivity.
  - vm_compute. reflexivity.
  - vm_compute. reflexivity.
  - vm_compute. discriminate.
  - vm_compute. reflexivity.
  - vm_compute. reflexivity.
  - vm_compute. reflexivity.
  - exists s. split; [exact Hrun|]. rewrite Hpath. vm_compute. reflexivity.
Defined.

(** X16: loggers with different names, constructed at the same instant
    with the same log directory, write to different files, provided both
    file paths are normalized as spelled (no [.], [..] or empty segment in
    the names). *)
Theorem X16_different_names_different_files
    (o1 o2 : Options) (w : World) (s1 s2 : State) :
  let literal (o : Options) :=
    homedir w +:+ "/" +:+ default "logs" (opt_logDirectory o) +:+ "/" +:+
    session_stamp w +:+ "/" +:+
    opt_loggerName o +:+ "-" +:+ session_stamp w +:+ ".log" in
  default true (opt_logToFile o1) = true ->
  default true (opt_logToFile o2) = true ->
  PieLogger.new o1 w = Return tt s1 ->
  PieLogger.new o2 w = Return tt s2 ->
  opt_logDirectory o1 = opt_logDirectory o2 ->
  homedir w <> "" ->
  Path.normal_absolute (literal o1) = true ->
  Path.normal_absolute (literal o2) = true ->
  opt_loggerName o1 <> opt_loggerName o2 ->
  logFilePath (this s1) <> logFilePath (this s2).
Proof.
  intros literal Hon1 Hon2 Hnew1 Hnew2 Hdir Hhome Hn1 Hn2 Hnames.
  rewrite (new_returned_path o1 w s1 Hon1 Hnew1).
  rewrite (new_returned_path o2 w s2 Hon2 Hnew2).
  rewrite (session_file_literal o1 w Hhome Hn1).
  rewrite (session_file_literal o2 w Hhome Hn2).
  rewrite Hdir. intros [= Heq]. apply Hnames.
  repeat (apply String.app_inj in Heq).
  by apply append_cancel_r in Heq.
Qed.

Lemma X16_different_names_different_files_witness :
  logFilePath (this (Host.session (Host.defaults "app") Host.healthy))
  <> logFilePath (this (Host.session (Host.defaults "db") Host.healthy)).
Proof.
  apply (X16_different_names_different_files
           (Host.defaults "app") (Host.defaults "db") Host.healthy).
  - reflexivity.
  - reflexivity.
  - vm_compute. reflexivity.
  - vm_compute. reflexivity.
  - reflexivity.
  - vm_compute. discriminate.
  - vm_compute. reflexivity.
  - vm_compute. reflexivity.
  - vm_compute. discriminate.
Defined.

(** Names that differ only by a [./] prefix share a file. *)
Example dot_prefixed_name_shares_the_file :
  session_file (Host.defaults "./app") Host.healthy
  = session_file (Host.defaults "app") Host.healthy.
Proof. vm_compute. reflexivity. Qed.

(** *** Runs on a host with a failing sink *)

Section FailingSinks.
Context `{Vendor}.

Lemma log_console_lost (s : State) level message details stream :
  (minimumLogLevel (this s) <= level)%Z ->
  stdout_broken (world s) = true ->
  logToFile (this s) = true ->
  fileWriteStream (this s) = Some stream ->
  write_fails (world s) (ws_path stream) = false ->
  log level message details s =
    Return tt
      (in_world s
         (appended (ws_path stream)
            (fullLog (this s) level (stamp (world s)) message details +:+ LF)
            (ticked (world s)))).
Proof.
  intros Hge Hbad Hfile Hstream Hw.
  rewrite log_passes by exact Hge. cbv zeta.
  rewrite consoleLog_lost by exact Hbad.
  cbn [in_world this]. rewrite Hfile.
  by erewrite fileLog_written by (cbn [in_world this world]; eauto).
Qed.


(** X17: a broken console does not stop the file sink.  On a host whose
    console loses what is printed, a run of emissions with file logging on
    and a working disk returns, the console shows nothing new, and the log
    file grows by the texts of exactly the records that pass the filter,
    in call order. *)
Theorem X17_broken_console_does_not_stop_the_file
    (es : list Emission) (s : State) (stream : WriteStream) :
  logToFile (this s) = true ->
  fileWriteStream (this s) = Some stream ->
  stdout_broken (world s) = true ->
  write_fails (world s) (ws_path stream) = false ->
  exists s',
    emit_all es s = Return tt s' /\
    stdout (world s') = stdout (world s) /\
    contents (world s') (ws_path stream) =
      contents (world s) (ws_path stream) +:+
        as_lines (passing (this s) (clock (world s)) (ticks (world s)) es).
Proof.
  revert s. induction es as [|e es IH]; intros s Hfile Hstream Hbad Hw.
  { exists s. simpl. rewrite append_empty_r. repeat split; reflexivity. }
  simpl emit_all. unfold bind, emit. simpl passing.
  destruct (Z.ltb_spec (em_level e) (minimumLogLevel (this s))) as [Hlt|Hge].
  - rewrite log_below by exact Hlt. by apply IH.
  - rewrite (log_console_lost s _ _ _ stream) by assumption.
    set (text := fullLog (this s) (em_level e) (stamp (world s))
                   (em_message e) (em_details e)).
    set (s1 := in_world s _).
    destruct (IH s1) as (s' & Hrun & Hout & Hcont); try assumption.
    exists s'. split; [exact Hrun|].
    subst s1. cbn [in_world world this] in *.
    rewrite contents_appended, contents_ticked in Hcont.
    fold (stamp (world s)). fold text.
    split; [exact Hout|].
    rewrite Hcont. simpl as_lines. by rewrite !append_assoc.
Qed.


End FailingSinks.

Lemma X17_broken_console_does_not_stop_the_file_witness :
  exists s',
    emit_all (H := Host.ansi) Host.mixed_emissions
      (Host.session (Host.small 2) Host.mute) = Return tt s' /\
    stdout (world s') = [] /\
    contents (world s') Host.small_log =
      "2024-01-02 03:04:05.010 INFO [a]: hello" +:+ LF +:+
      "2024-01-02 03:04:05.020 ERROR [a]: world" +:+ LF.
Proof.
  destruct (X17_broken_console_does_not_stop_the_file (H := Host.ansi)
              Host.mixed_emissions
              (Host.session (Host.small 2) Host.mute)
              {| ws_id := 0; ws_path := Host.small_log |})
    as (s' & Hrun & Hout & Hcont).
  - vm_compute. reflexivity.
  - vm_compute. reflexivity.
  - vm_compute. reflexivity.
  - vm_compute. reflexivity.
  - exists s'. split; [exact Hrun|]. split.
    + etransitivity; [exact Hout|]. vm_compute. reflexivity.
    + etransitivity; [exact Hcont|]. vm_compute. reflexivity.
Defined.

